(** * shyfem_toolbox: the NetCDF subsetting core of [nc_tools.py]

    A shallow embedding of [sort_river_nodes] and [create_subset_nc]
    together with the properties of the node ordering, the nearest-grid-index
    resolution, the time-step selection and the subset writer.

    The Python code leans on four libraries.  Their operations are kept
    apart from the code of the repository:
    - numpy's integer machinery ([arange], slicing, fancy indexing,
      [argmin], [unravel_index]) is written out below;
    - netCDF4 datasets are records of their dimensions, variables and
      units, and the files are a map from paths to their contents;
    - numpy's floating-point arithmetic ([NpFloat]), pandas' [sort_values]
      and geopy's [geodesic] ([PyLibs]) are taken as interfaces, since
      their results are decided outside the repository; [binary64] is the
      arithmetic of numpy's [float64] itself. *)

From stdpp Require Import gmap strings list fin_maps sorting.
From Stdlib Require Import ZArith Lia Ascii Floats.

Local Open Scope Z_scope.

(** ** Exceptions and the error monad *)

(** The exceptions the code can raise, by their Python names. *)
Inductive exn : Type :=
  | ValueError
  | KeyError (key : string)
  | IndexError
  | ZeroDivisionError
  | AttributeError (name : string)
  | FileNotFoundError (path : string)
  | PermissionError (path : string)
  | ParserError (path : string)
  | OSError (path : string).

Inductive Result (A : Type) : Type :=
  | Ok (a : A)
  | Err (e : exn).
Arguments Ok {A} a.
Arguments Err {A} e.

#[global] Instance Result_ret : MRet Result := @Ok.
#[global] Instance Result_bind : MBind Result := λ A B f m,
  match m with
  | Ok a => f a
  | Err e => Err e
  end.
#[global] Instance Result_fmap : FMap Result := λ A B f m,
  match m with
  | Ok a => Ok (f a)
  | Err e => Err e
  end.

(** An optional value, or the given exception. *)
Definition or_raise {A} (e : exn) (o : option A) : Result A :=
  match o with
  | Some a => Ok a
  | None => Err e
  end.

Definition is_Ok {A} (r : Result A) : Prop := ∃ a, r = Ok a.
Definition is_Err {A} (r : Result A) : Prop := ∃ e, r = Err e.

(** ** numpy: integer ranges, slices and indexing *)

(** [np.arange(start, stop, step)] on integers: [ceil((stop - start) / step)]
    values, none when that is negative; a zero step divides by zero. *)
Definition np_arange (start stop step : Z) : Result (list Z) :=
  if decide (step = 0) then Err ZeroDivisionError
  else Ok ((λ k, start + k * step)
             <$> seqZ 0 (Z.max 0 (- ((start - stop) `div` step)))).

(** The elements of [l] at positions [skip], [skip + k], [skip + 2 k], ... *)
Fixpoint stride_skip {A} (k skip : nat) (l : list A) : list A :=
  match l with
  | [] => []
  | x :: l' =>
      match skip with
      | O => x :: stride_skip k (pred k) l'
      | S s => stride_skip k s l'
      end
  end.

(** [a[::step]]: from the first element forwards for a positive step, from
    the last element backwards for a negative one; a zero step is refused. *)
Definition slice_step {A} (a : list A) (step : Z) : Result (list A) :=
  if decide (step = 0) then Err ValueError
  else if decide (0 < step) then Ok (stride_skip (Z.to_nat step) 0 a)
  else Ok (stride_skip (Z.to_nat (- step)) 0 (reverse a)).

(** [a[i]] for an integer [i]: negative indices count from the end. *)
Definition np_getitem {A} (a : list A) (i : Z) : Result A :=
  let n := Z.of_nat (length a) in
  if decide (0 ≤ i < n) then or_raise IndexError (a !! Z.to_nat i)
  else if decide (- n ≤ i < 0)
       then or_raise IndexError (a !! Z.to_nat (n + i))
  else Err IndexError.

(** [a[idx]] for a sequence of integers (fancy indexing along the first
    axis). *)
Definition np_take {A} (a : list A) (idx : list Z) : Result (list A) :=
  mapM (np_getitem a) idx.

(** A numpy array used as an index: its elements, and whether its dtype
    is integral.  [np.arange] on integers gives an integral array;
    [np.array(l)] of a list of integers gives one unless the list is empty,
    which gives an array of floats. *)
Record IndexArray : Type := {
  elems : list Z;
  integral : bool
}.

Definition int_array (l : list Z) : IndexArray :=
  {| elems := l; integral := true |}.

(** The integers of [np.int64]. *)
Definition fits_int64 (z : Z) : bool := bool_decide (- 2 ^ 63 ≤ z < 2 ^ 63).

Definition np_array (l : list Z) : IndexArray :=
  {| elems := l; integral := bool_decide (l ≠ []) |}.

(** [a[::step]] keeps the dtype. *)
Definition slice_array (a : IndexArray) (step : Z) : Result IndexArray :=
  l ← slice_step (elems a) step;
  mret {| elems := l; integral := integral a |}.

(** [a[ix]] for an index array [ix]: an array of floats is refused. *)
Definition np_take_array {A} (a : list A) (ix : IndexArray)
    : Result (list A) :=
  if integral ix then np_take a (elems ix) else Err IndexError.

(** [np.argmin] over the flattened array: the loop of numpy's [argmin],
    which moves to a later element only when it is strictly smaller, so the
    first occurrence of the minimum is kept, and which stops at the first
    NaN, taken as minimal.  An empty array is refused. *)
Fixpoint argmin_loop {V} (lt : V → V → bool) (isnan : V → bool) (mp : V)
    (min_ind i : nat) (ip : list V) : nat :=
  match ip with
  | [] => min_ind
  | x :: ip' =>
      if isnan x then i
      else if lt x mp then argmin_loop lt isnan x i (S i) ip'
      else argmin_loop lt isnan mp min_ind (S i) ip'
  end.

Definition np_argmin {V} (lt : V → V → bool) (isnan : V → bool)
    (a : list V) : Result nat :=
  match a with
  | [] => Err ValueError
  | x :: ip =>
      if isnan x then Ok 0%nat else Ok (argmin_loop lt isnan x 0 1 ip)
  end.

(** [np.unravel_index(flat, shape)] in C order. *)
Definition shape_size (shape : list nat) : nat := foldr Nat.mul 1%nat shape.

Fixpoint unravel (flat : nat) (shape : list nat) : list nat :=
  match shape with
  | [] => []
  | _ :: rest =>
      (flat `div` shape_size rest)%nat
        :: unravel (flat `mod` shape_size rest)%nat rest
  end.

Definition np_unravel_index (flat : nat) (shape : list nat)
    : Result (list nat) :=
  if decide (flat < shape_size shape)%nat then Ok (unravel flat shape)
  else Err ValueError.

(** [range(n - 1, 0, -1)] *)
Definition range_down (n : nat) : list nat := reverse (seq 1 (n - 1)).

(** [enumerate(l)] *)
Definition enumerate {A} (l : list A) : list (nat * A) :=
  zip (seq 0 (length l)) l.

(** [l[i] = v] on a Python list. *)
Definition list_setitem {A} (l : list A) (i : nat) (v : A) : Result (list A) :=
  if decide (i < length l)%nat then Ok (<[i := v]> l) else Err IndexError.

(** ** The libraries behind the code *)

(** What the code takes from numpy's floating-point arithmetic, from pandas
    and from geopy.  [V] is the type of the values held in table cells and
    in variables. *)
Class NpFloat (V : Type) := {
  (** numpy: [a - b], [a + b], [a ** 2], [np.sqrt a], [a < b] and
      [np.isnan a] *)
  fsub : V → V → V;
  fadd : V → V → V;
  fsquare : V → V;
  fsqrt : V → V;
  flt : V → V → bool;
  fisnan : V → bool
}.

Class PyLibs (V : Type) := {
  py_np :: NpFloat V;
  (** the integer [0] of [[0] * n] *)
  fzero : V;
  (** the cast to [np.float32] *)
  to_float32 : V → V;
  (** the content of a netCDF variable that was created and not yet written *)
  nc_fill : V;
  (** pandas: the order in which [sort_values] takes the rows, given the
      key column *)
  argsort : list V → list nat;
  (** geopy: [geodesic((lat1, lon1), (lat2, lon2)).meters] *)
  geodesic_meters : V * V → V * V → V
}.

(** [a <= b] in the order of [flt] *)
Definition fle `{PyLibs V} (a b : V) : Prop := flt b a = false.

(** The order of the values, as IEEE 754 has it: [<] is irreflexive and
    transitive, and a value that is not NaN and is neither above [a] nor
    below [c] keeps [a] from being below [c].  NaN itself is below nothing
    and above nothing. *)
Class FloatOrder (V : Type) `{NpFloat V} := {
  flt_irrefl (a : V) : flt a a = false;
  flt_trans (a b c : V) : flt a b = true → flt b c = true → flt a c = true;
  flt_negtrans (a b c : V) :
    fisnan b = false → flt a b = false → flt b c = false → flt a c = false
}.

(** The documented result of [sort_values] for every [kind]: the rows are
    rearranged, and the key column ascends. *)
Class SortContract (V : Type) `{PyLibs V} := {
  argsort_perm (keys : list V) : argsort keys ≡ₚ seq 0 (length keys);
  argsort_sorted (keys : list V) :
    Sorted fle (omap (λ i, keys !! i) (argsort keys))
}.

(** ** Data model *)

(** A pandas [DataFrame]: its columns by name. *)
Abbreviation DataFrame V := (gmap string (list V)).

(** A numpy array: shape and elements in C order. *)
Record ndarray (V : Type) := {
  shape : list nat;
  data : list V
}.
Arguments shape {V} _.
Arguments data {V} _.

(** A gridded dataset with the variables of the source and of the subset:
    the three dimensions, the variables by name and their [units]. *)
Record Dataset (V : Type) := {
  dim_node : nat;
  dim_level : nat;
  dim_time : nat;
  longitude : list V;
  latitude : list V;
  level : list V;
  total_depth : list V;
  time : list V;
  salinity : list (list (list V));
  temperature : list (list (list V));
  units : gmap string string
}.
Arguments dim_node {V} _.
Arguments dim_level {V} _.
Arguments dim_time {V} _.
Arguments longitude {V} _.
Arguments latitude {V} _.
Arguments level {V} _.
Arguments total_depth {V} _.
Arguments time {V} _.
Arguments salinity {V} _.
Arguments temperature {V} _.
Arguments units {V} _.

(** The files the code reads and writes, by path. *)
Inductive File (V : Type) : Type :=
  | NcFile (d : Dataset V)
  | CsvFile (df : DataFrame V).
Arguments NcFile {V} d.
Arguments CsvFile {V} df.

Abbreviation FS V := (gmap string (File V)).

(** ** The code of [nc_tools.py] *)

Section nc_tools_ordering.
Context {V : Type} `{PyLibs V}.

(** *** File access *)

(** [pd.read_csv(path)] *)
Definition read_csv (fs : FS V) (path : string) : Result (DataFrame V) :=
  match fs !! path with
  | Some (CsvFile df) => Ok df
  | Some (NcFile _) => Err (ParserError path)
  | None => Err (FileNotFoundError path)
  end.

(** [nc.Dataset(path, 'r')] *)
Definition open_dataset (fs : FS V) (path : string) : Result (Dataset V) :=
  match fs !! path with
  | Some (NcFile d) => Ok d
  | Some (CsvFile _) => Err (OSError path)
  | None => Err (FileNotFoundError path)
  end.

(** *** pandas *)

(** [df[name].values] *)
Definition column (df : DataFrame V) (name : string) : Result (list V) :=
  or_raise (KeyError name) (df !! name).

(** The rows [idx] of a column, in that order. *)
Definition take_rows (idx : list nat) (col : list V) : list V :=
  omap (λ i, col !! i) idx.

(** [df.sort_values(by=by_)]: every column is rearranged by the argsort
    of the key column. *)
Definition sort_values (df : DataFrame V) (by_ : string)
    : Result (DataFrame V) :=
  keys ← column df by_;
  mret (take_rows (argsort keys) <$> df).

(** *** Node Ordering Engine ([sort_river_nodes], lines 18-54) *)

(** The loop of lines 42-45 over the remaining values [rrs] of [rr]. *)
Fixpoint river_distances (river_001_x river_001_y : list V)
    (rrs : list nat) (d1 : list V) : Result (list V) :=
  match rrs with
  | [] => Ok d1
  | rr :: rrs' =>
      c_x1 ← or_raise IndexError (river_001_x !! rr);
      c_y1 ← or_raise IndexError (river_001_y !! rr);
      c_x2 ← or_raise IndexError (river_001_x !! (rr - 1)%nat);
      c_y2 ← or_raise IndexError (river_001_y !! (rr - 1)%nat);
      d1' ← list_setitem d1 (rr - 1)
              (geodesic_meters (c_x1, c_y1) (c_x2, c_y2));
      river_distances river_001_x river_001_y rrs' d1'
  end.

Definition sort_river_nodes (fs : FS V) (file_XY_river : string)
    (sort_LonLat : Z) : Result (DataFrame V) :=
  river_001 ← read_csv fs file_XY_river;
  river_001 ←
    (if decide (sort_LonLat = 0) then sort_values river_001 "Lon"
     else if decide (sort_LonLat = 1) then sort_values river_001 "Lat"
     else Err ValueError);
  river_001_x ← column river_001 "Lat";
  river_001_y ← column river_001 "Lon";
  river_001_n ← column river_001 "Node";
  d1 ← river_distances river_001_x river_001_y
          (range_down (length river_001_n))
          (replicate (length river_001_n) fzero);
  mret (<["Node" := river_001_n]>
          (<["Lat" := river_001_x]>
             (<["Lon" := river_001_y]>
                (<["Distance" := d1]> ∅)))).

End nc_tools_ordering.

(** *** Nearest-Grid-Index Resolver ([create_subset_nc], lines 80-84) *)

Section nc_tools_resolver.
Context {V : Type} `{NpFloat V}.

(** [np.sqrt((longitude - lon)**2 + (latitude - lat)**2)], element by
    element; the two coordinate arrays share their shape. *)
Definition squared_distance_to (lon lat : V) (glon glat : V) : V :=
  fadd (fsquare (fsub glon lon)) (fsquare (fsub glat lat)).

Definition distance_to (lon lat : V) (glon glat : V) : V :=
  fsqrt (squared_distance_to lon lat glon glat).

Definition distances (longitude latitude : ndarray V) (lon lat : V)
    : ndarray V :=
  {| shape := shape longitude;
     data := zip_with (distance_to lon lat) (data longitude) (data latitude) |}.

(** One pass of the loop body: [node_idx[0]]. *)
Definition resolve_index (longitude latitude : ndarray V) (q : V * V)
    : Result nat :=
  let distances := distances longitude latitude q.1 q.2 in
  flat ← np_argmin flt fisnan (data distances);
  node_idx ← np_unravel_index flat (shape distances);
  or_raise IndexError (head node_idx).

(** [queries] is [zip(river_lons, river_lats)]. *)
Definition resolve_indices (longitude latitude : ndarray V)
    (queries : list (V * V)) : Result (list nat) :=
  mapM (resolve_index longitude latitude) queries.

End nc_tools_resolver.

Section nc_tools_writer.
Context {V : Type} `{PyLibs V}.

(** *** Time-Step Selector ([create_subset_nc], lines 86-89) *)

(** The array of [np.arange] is integral when the stride is an [int64];
    beyond that numpy falls back to floats or objects. *)
Definition select_time_steps (total : Z) (explicit : option (list Z))
    (stride : Z) : Result IndexArray :=
  match explicit with
  | None =>
      l ← np_arange 0 total stride;
      mret {| elems := l; integral := fits_int64 stride |}
  | Some time_steps => slice_array (np_array time_steps) stride
  end.

(** *** Subset Writer ([create_subset_nc], lines 91-118) *)

(** The cast of a (node, level) slab on assignment to a [float32]
    variable. *)
Definition slab_to_float32 (slab : list (list V)) : list (list V) :=
  fmap (M := list) (fmap (M := list) to_float32) slab.

(** [variable[t, river_nodes_idx, :]] on a netCDF4 variable: the rows
    [river_nodes_idx] of the slab of time index [t], every level.  The
    variable refuses an empty list of indices. *)
Definition read_slab (variable : list (list (list V))) (t : Z)
    (river_nodes_idx : list Z) : Result (list (list V)) :=
  match river_nodes_idx with
  | [] => Err IndexError
  | _ :: _ =>
      slab ← np_getitem variable t;
      np_take slab river_nodes_idx
  end.

(** The loop of lines 116-118 over the remaining pairs of
    [enumerate(time_steps)]. *)
Fixpoint copy_slices (dataset : Dataset V) (river_nodes_idx : list Z)
    (its : list (nat * Z))
    (new_salinity new_temperature : list (list (list V)))
    : Result (list (list (list V)) * list (list (list V))) :=
  match its with
  | [] => Ok (new_salinity, new_temperature)
  | (i, t) :: its' =>
      sal ← read_slab (salinity dataset) t river_nodes_idx;
      new_salinity' ← list_setitem new_salinity i (slab_to_float32 sal);
      tem ← read_slab (temperature dataset) t river_nodes_idx;
      new_temperature' ←
        list_setitem new_temperature i (slab_to_float32 tem);
      copy_slices dataset river_nodes_idx its' new_salinity' new_temperature'
  end.

Definition write_subset (dataset : Dataset V) (river_nodes_idx : list nat)
    (time_steps : IndexArray) : Result (Dataset V) :=
  let idx := Z.of_nat <$> river_nodes_idx in
  let node := length river_nodes_idx in
  let nlevel := length (level dataset) in
  let ntime := length (elems time_steps) in
  let empty := replicate ntime (replicate node (replicate nlevel nc_fill)) in
  time_units ← or_raise (AttributeError "units") (units dataset !! "time");
  new_longitude ← np_take (longitude dataset) idx;
  new_latitude ← np_take (latitude dataset) idx;
  new_total_depth ← np_take (total_depth dataset) idx;
  new_time ← np_take_array (time dataset) time_steps;
  '(new_salinity, new_temperature) ←
    copy_slices dataset idx (enumerate (elems time_steps)) empty empty;
  mret {| dim_node := node;
          dim_level := nlevel;
          dim_time := ntime;
          longitude := new_longitude;
          latitude := new_latitude;
          level := to_float32 <$> level dataset;
          total_depth := to_float32 <$> new_total_depth;
          time := new_time;
          salinity := new_salinity;
          temperature := new_temperature;
          units := <["time" := time_units]>
                     (<["latitude" := "degrees_north"]>
                        (<["longitude" := "degrees_east"]>
                           (<["level" := "meters"]>
                              (<["total_depth" := "meters"]> ∅)))) |}.

(** *** [create_subset_nc] (lines 57-120) *)

(** [nc.Dataset(output_file, 'w')] of line 91: the source, opened at line
    69, is still open, and its file cannot be opened for writing. *)
Definition create_dataset (nc_file output_file : string) : Result unit :=
  if decide (output_file = nc_file) then Err (PermissionError output_file)
  else Ok ().

(** The destination is opened for writing after the selections are made
    and replaces whatever the path held.  An exception inside the [with]
    block is returned as such; the half-written file is not modelled. *)
Definition create_subset_nc (fs : FS V) (nc_file river_file : string)
    (sort_LonLat : Z) (output_file : string)
    (time_steps : option (list Z)) (save_frequency : Z) : Result (FS V) :=
  dataset ← open_dataset fs nc_file;
  let longitude := {| shape := [length (longitude dataset)];
                      data := longitude dataset |} in
  let latitude := {| shape := [length (latitude dataset)];
                     data := latitude dataset |} in
  river_nodes ← sort_river_nodes fs river_file sort_LonLat;
  river_lons ← column river_nodes "Lon";
  river_lats ← column river_nodes "Lat";
  river_nodes_idx ← resolve_indices longitude latitude
                      (zip river_lons river_lats);
  time_steps ← select_time_steps (Z.of_nat (length (time dataset)))
                 time_steps save_frequency;
  _ ← create_dataset nc_file output_file;
  new_dataset ← write_subset dataset river_nodes_idx time_steps;
  mret (<[output_file := NcFile new_dataset]> fs).

End nc_tools_writer.

(** ** The caller: [process_folder] (lines 123-140) *)

(** What [process_folder] takes from [os] and [glob].  Directories are not
    entries of the file map, so [os.makedirs] either raises or returns
    with the files as they were. *)
Class OsLibs (V : Type) := {
  (** [os.makedirs(path, exist_ok=True)] *)
  makedirs : FS V → string → Result unit;
  (** [glob.glob(pattern)]: the matching paths, in the order the system
      lists them *)
  glob : FS V → string → list string
}.

(** [s.endswith('/')] *)
Fixpoint ends_with_sep (s : string) : bool :=
  match s with
  | EmptyString => false
  | String c EmptyString => bool_decide (c = "/"%char)
  | String _ s' => ends_with_sep s'
  end.

(** [s.startswith('/')] *)
Definition starts_with_sep (s : string) : bool :=
  match s with
  | EmptyString => false
  | String c _ => bool_decide (c = "/"%char)
  end.

(** [os.path.join(a, b)] (posix) *)
Definition os_path_join (a b : string) : string :=
  if starts_with_sep b then b
  else if bool_decide (a = EmptyString) || ends_with_sep a then a +:+ b
  else a +:+ "/" +:+ b.

(** [os.path.basename(p)] (posix): what follows the last ['/'].  [acc] is
    what was read since the last separator. *)
Fixpoint basename_from (acc p : string) : string :=
  match p with
  | EmptyString => acc
  | String c p' =>
      if bool_decide (c = "/"%char) then basename_from EmptyString p'
      else basename_from (acc +:+ String c EmptyString) p'
  end.

Definition os_path_basename (p : string) : string :=
  basename_from EmptyString p.

(** [os.path.join(output_folder, f"subset_{os.path.basename(nc_file)}")] *)
Definition subset_path (output_folder nc_file : string) : string :=
  os_path_join output_folder ("subset_" +:+ os_path_basename nc_file).

Section folder.
Context {V : Type} `{PyLibs V} `{OsLibs V}.

(** The loop of lines 138-140 over the remaining files. *)
Fixpoint process_files (fs : FS V) (nc_files : list string)
    (river_file : string) (sort_LonLat : Z) (output_folder : string)
    (save_frequency : Z) : Result (FS V) :=
  match nc_files with
  | [] => Ok fs
  | nc_file :: nc_files' =>
      let output_file := subset_path output_folder nc_file in
      fs' ← create_subset_nc fs nc_file river_file sort_LonLat output_file
              None save_frequency;
      process_files fs' nc_files' river_file sort_LonLat output_folder
        save_frequency
  end.

Definition process_folder (fs : FS V) (nc_folder river_file : string)
    (sort_LonLat : Z) (output_folder : string) (save_frequency : Z)
    : Result (FS V) :=
  _ ← makedirs fs output_folder;
  let nc_files := glob fs (os_path_join nc_folder "*.nc") in
  process_files fs nc_files river_file sort_LonLat output_folder
    save_frequency.

End folder.

(** No separator occurs in [s]. *)
Fixpoint no_sep (s : string) : bool :=
  match s with
  | EmptyString => true
  | String c s' => negb (bool_decide (c = "/"%char)) && no_sep s'
  end.

(** The time indices are within the [total] time steps, counted from the
    start or, when negative, from the end. *)
Definition in_time_range (total : nat) (t : Z) : Prop :=
  - Z.of_nat total ≤ t < Z.of_nat total.

(** A stand-in for [os] and [glob] on the file map of the examples: the
    directory can always be made, and the folder lists [src.nc]. *)
#[global] Instance os_east_first : OsLibs Z := {|
  makedirs := λ _ _, Ok ();
  glob := λ _ _, ["src.nc"]
|}.

(** ** Vocabulary of the statements *)

(** The position numpy reads for index [i] in an array of length [n]. *)
Definition py_index (n : nat) (i : Z) : nat :=
  if decide (i < 0) then Z.to_nat (Z.of_nat n + i) else Z.to_nat i.

(** [m] is the first position of a least element of [a]. *)
Definition first_minimum {V} (lt : V → V → bool) (a : list V) (m : nat)
    : Prop :=
  ∃ vm, a !! m = Some vm ∧
        (∀ j x, a !! j = Some x → lt x vm = false) ∧
        (∀ j x, (j < m)%nat → a !! j = Some x → lt vm x = true).

(** Row [n] of the slab that time index [t] reads in a (time, node, level)
    variable. *)
Definition source_row {V} (var : list (list (list V))) (t : Z) (n : nat)
    : option (list V) :=
  slab ← var !! py_index (length var) t; slab !! n.

(** Every column of the table has [n] rows. *)
Definition wf_frame {V} (df : DataFrame V) (n : nat) : Prop :=
  ∀ c col, df !! c = Some col → length col = n.

(** The geodesic distance from row [i + 1] to row [i] of the coordinate
    columns. *)
Definition pair_distance `{PyLibs V} (lat lon : list V) (i : nat)
    : option V :=
  x1 ← lat !! S i; y1 ← lon !! S i;
  x2 ← lat !! i; y2 ← lon !! i;
  Some (geodesic_meters (x1, y1) (x2, y2)).

(** A (time, node, level) variable has the declared shape. *)
Definition wf_variable {V} (ntime nnode nlevel : nat)
    (var : list (list (list V))) : Prop :=
  length var = ntime ∧
  Forall (λ slab, length slab = nnode ∧
                  Forall (λ row, length row = nlevel) slab) var.

(** The variables of a dataset have the shapes of its dimensions, and the
    time variable carries units. *)
Definition wf_dataset {V} (d : Dataset V) : Prop :=
  length (longitude d) = dim_node d ∧
  length (latitude d) = dim_node d ∧
  length (total_depth d) = dim_node d ∧
  length (level d) = dim_level d ∧
  length (time d) = dim_time d ∧
  wf_variable (dim_time d) (dim_node d) (dim_level d) (salinity d) ∧
  wf_variable (dim_time d) (dim_node d) (dim_level d) (temperature d) ∧
  is_Some (units d !! "time").

(** [new] is the subset of [d] at the node indices [idx] and the time
    indices [time_steps]: dimensions, per-node and per-time variables, and
    the (time, node, level) slabs, with the casts of the declared types. *)
Definition subset_of `{PyLibs V} (d : Dataset V) (idx : list nat)
    (time_steps : list Z) (new : Dataset V) : Prop :=
  dim_node new = length idx ∧
  dim_level new = dim_level d ∧
  dim_time new = length time_steps ∧
  level new = to_float32 <$> level d ∧
  length (longitude new) = length idx ∧
  length (latitude new) = length idx ∧
  length (total_depth new) = length idx ∧
  length (time new) = length time_steps ∧
  length (salinity new) = length time_steps ∧
  length (temperature new) = length time_steps ∧
  (∀ k n, idx !! k = Some n →
     longitude new !! k = longitude d !! n ∧
     latitude new !! k = latitude d !! n ∧
     total_depth new !! k = to_float32 <$> total_depth d !! n) ∧
  (∀ i t, time_steps !! i = Some t →
     time new !! i = time d !! py_index (dim_time d) t) ∧
  (∀ i t, time_steps !! i = Some t →
     ∃ sal tem,
       salinity new !! i = Some sal ∧ temperature new !! i = Some tem ∧
       length sal = length idx ∧ length tem = length idx ∧
       ∀ k n, idx !! k = Some n →
         sal !! k
         = fmap (M := list) to_float32 <$> source_row (salinity d) t n ∧
         tem !! k
         = fmap (M := list) to_float32 <$> source_row (temperature d) t n).

(** ** An instance on integers *)

(** Integer-valued cells, to run the code on concrete tables and datasets:
    exact arithmetic, the integer square root (exact on the perfect squares
    the examples use), a stable merge sort for [sort_values], no rounding
    in the cast, and the taxicab distance in place of the geodesic one. *)
Definition key_le (a b : Z * nat) : Prop := a.1 ≤ b.1.

#[global] Instance key_le_dec : RelDecision key_le :=
  λ a b, Z_le_dec a.1 b.1.

Definition Z_argsort (keys : list Z) : list nat :=
  (merge_sort key_le (zip keys (seq 0 (length keys)))).*2.

Definition Z_np : NpFloat Z := {|
  fsub := Z.sub;
  fadd := Z.add;
  fsquare := λ x, x * x;
  fsqrt := Z.sqrt;
  flt := Z.ltb;
  fisnan := λ _, false
|}.

#[global] Instance Z_libs : PyLibs Z := {|
  py_np := Z_np;
  fzero := 0;
  to_float32 := λ x, x;
  nc_fill := -999;
  argsort := Z_argsort;
  geodesic_meters := λ p q, Z.abs (p.1 - q.1) + Z.abs (p.2 - q.2)
|}.

(** The same libraries with a sort that is not stable: rows with equal
    keys come out in the reverse of their input order. *)
Definition Z_argsort_ties_reversed (keys : list Z) : list nat :=
  (merge_sort key_le (reverse (zip keys (seq 0 (length keys))))).*2.

Definition Z_libs_ties_reversed : PyLibs Z := {|
  py_np := Z_np;
  fzero := 0;
  to_float32 := λ x, x;
  nc_fill := -999;
  argsort := Z_argsort_ties_reversed;
  geodesic_meters := λ p q, Z.abs (p.1 - q.1) + Z.abs (p.2 - q.2)
|}.

(** A river table of two nodes on the same meridian. *)
Definition river_same_lon : DataFrame Z :=
  <["Node" := [1; 2]]> (<["Lat" := [0; 1]]> (<["Lon" := [5; 5]]> ∅)).

(** A river table of two nodes, the eastern one first. *)
Definition river_east_first : DataFrame Z :=
  <["Node" := [1; 2]]> (<["Lat" := [0; 0]]> (<["Lon" := [2; 1]]> ∅)).

(** A source dataset whose two grid nodes are the two river nodes, in the
    same order, with one level and one time step. *)
Definition source_east_first : Dataset Z := {|
  dim_node := 2; dim_level := 1; dim_time := 1;
  longitude := [2; 1];
  latitude := [0; 0];
  level := [0];
  total_depth := [10; 20];
  time := [0];
  salinity := [[[35]; [5]]];
  temperature := [[[18]; [12]]];
  units := <["time" := "seconds since 2000-01-01"]> ∅
|}.

Definition fs_east_first : FS Z :=
  <["src.nc" := NcFile source_east_first]>
    (<["river.csv" := CsvFile river_east_first]> ∅).

(** The subset of [source_east_first] that a west-east run over the table
    of two nodes and every time step writes. *)
Definition subset_east_first : Dataset Z := {|
  dim_node := 2; dim_level := 1; dim_time := 1;
  longitude := [1; 2];
  latitude := [0; 0];
  level := [0];
  total_depth := [20; 10];
  time := [0];
  salinity := [[[5]; [35]]];
  temperature := [[[12]; [18]]];
  units := <["time" := "seconds since 2000-01-01"]>
             (<["latitude" := "degrees_north"]>
                (<["longitude" := "degrees_east"]>
                   (<["level" := "meters"]>
                      (<["total_depth" := "meters"]> ∅))))
|}.

(** A 2 x 2 grid with cells (0,0), (3,0) in the first row and (0,4), (3,4)
    in the second. *)
Definition grid2x2_longitude : ndarray Z :=
  {| shape := [2; 2]%nat; data := [0; 3; 0; 3] |}.
Definition grid2x2_latitude : ndarray Z :=
  {| shape := [2; 2]%nat; data := [0; 0; 4; 4] |}.

(** ** IEEE 754 binary64 *)

(** numpy's [float64] arithmetic on the primitive floating-point numbers,
    which are the binary64 numbers with operations rounded to nearest,
    ties to even; [a ** 2] is the product [a * a]. *)
#[global] Instance binary64 : NpFloat float := {|
  fsub := PrimFloat.sub;
  fadd := PrimFloat.add;
  fsquare := λ x, PrimFloat.mul x x;
  fsqrt := PrimFloat.sqrt;
  flt := PrimFloat.ltb;
  fisnan := PrimFloat.is_nan
|}.

(** The 2 x 2 grid of [grid2x2_longitude] in binary64. *)
Definition grid2x2_longitude64 : ndarray float :=
  {| shape := [2; 2]%nat; data := [0%float; 3%float; 0%float; 3%float] |}.
Definition grid2x2_latitude64 : ndarray float :=
  {| shape := [2; 2]%nat; data := [0%float; 0%float; 4%float; 4%float] |}.

(** A 1-D grid of two cells on the meridian 1, at latitude 2^-26 and on
    the equator.  Seen from (0, 0) their squared distances are 1 + 2^-52,
    the binary64 number next above 1, and 1. *)
Definition meridian_longitude : ndarray float :=
  {| shape := [2%nat]; data := [1%float; 1%float] |}.
Definition meridian_latitude : ndarray float :=
  {| shape := [2%nat]; data := [0x1p-26%float; 0%float] |}.

(** * Properties *)

(** ** The error monad *)

Lemma bind_Ok {A B} (m : Result A) (f : A → Result B) (b : B) :
  m ≫= f = Ok b ↔ ∃ a, m = Ok a ∧ f a = Ok b.
Proof.
  destruct m as [a|e]; simpl; split.
  - intros Hf. by exists a.
  - by intros (a' & [= <-] & Hf).
  - done.
  - by intros (a' & [=] & _).
Qed.

Lemma mapM_Ok_length {A B} (f : A → Result B) (l : list A) (k : list B) :
  mapM f l = Ok k → length k = length l.
Proof.
  revert k. induction l as [|x l IH]; intros k; simpl.
  - by intros [= <-].
  - intros (y & Hy & (k' & Hk' & [= <-])%bind_Ok)%bind_Ok.
    simpl. f_equal. by apply IH.
Qed.

Lemma mapM_Ok_lookup {A B} (f : A → Result B) (l : list A) (k : list B)
    (i : nat) (x : A) :
  mapM f l = Ok k → l !! i = Some x → ∃ y, k !! i = Some y ∧ f x = Ok y.
Proof.
  revert k i. induction l as [|x' l IH]; intros k i; simpl; [done|].
  intros (y & Hy & (k' & Hk' & [= <-])%bind_Ok)%bind_Ok Hi.
  destruct i as [|i]; simpl in *.
  - injection Hi as ->. by exists y.
  - by apply IH.
Qed.

Lemma mapM_is_Ok {A B} (f : A → Result B) (l : list A) :
  Forall (λ x, is_Ok (f x)) l → is_Ok (mapM f l).
Proof.
  induction 1 as [|x l [y Hy] _ [k Hk]]; simpl.
  - by eexists.
  - rewrite Hy. simpl. rewrite Hk. by eexists.
Qed.

(** ** Time-step selection *)

Lemma stride_skip_lookup {A} (k : nat) (l : list A) :
  (1 ≤ k)%nat →
  ∀ (skip j : nat), stride_skip k skip l !! j = l !! (skip + j * k)%nat.
Proof.
  intros Hk. induction l as [|x l IH]; intros skip j; [done|].
  destruct skip as [|s]; simpl.
  - destruct j as [|j]; [done|]. simpl. rewrite IH.
    replace (k + j * k)%nat with (S (pred k + j * k)) by lia. done.
  - by rewrite IH.
Qed.

Lemma np_arange_lookup (stop step : Z) (j : nat) :
  0 < step →
  ∃ l, np_arange 0 stop step = Ok l ∧
       l !! j = if decide (Z.of_nat j * step < stop)
               then Some (Z.of_nat j * step) else None.
Proof.
  intros Hs. unfold np_arange. rewrite decide_False by lia.
  eexists; split; [done|].
  rewrite list_lookup_fmap.
  set (len := Z.max 0 (- ((0 - stop) `div` step))).
  assert (Hlen : Z.of_nat j * step < stop ↔ Z.of_nat j < len).
  { unfold len.
    pose proof (Z.div_mod (0 - stop) step ltac:(lia)) as Hdm.
    pose proof (Z.mod_pos_bound (0 - stop) step Hs) as Hb.
    split; intros; nia. }
  case_decide as Hj.
  - rewrite lookup_seqZ_lt by lia. simpl. f_equal; lia.
  - rewrite lookup_seqZ_ge by lia. done.
Qed.

(** C3. For a non-negative total and a positive stride: without an explicit
    sequence the values selected are exactly 0, stride, 2*stride, ... below
    total (held in an array of integers as long as the stride is an
    int64); with an explicit sequence the selection is every stride-th
    element of that sequence from its first element (position j of the
    result is position j*stride of the sequence, whatever the values
    are), as in the example total=10, explicit=[1,3,5,7,9], stride=2. *)
Theorem select_time_steps_spec (total stride : Z) :
  0 ≤ total → 0 < stride →
  (∃ a, select_time_steps total None stride = Ok a ∧
        (stride < 2 ^ 63 → integral a = true) ∧
        ∀ j : nat,
          elems a !! j = if decide (Z.of_nat j * stride < total)
                         then Some (Z.of_nat j * stride) else None) ∧
  (∀ explicit : list Z,
      ∃ a, select_time_steps total (Some explicit) stride = Ok a ∧
           ∀ j : nat,
             elems a !! j = explicit !! (j * Z.to_nat stride)%nat) ∧
  select_time_steps 10 (Some [1; 3; 5; 7; 9]) 2 = Ok (int_array [1; 5; 9]).
Proof.
  intros Htot Hs. split; [|split].
  - unfold select_time_steps.
    destruct (np_arange_lookup total stride 0 Hs) as (l & Hl & _).
    rewrite Hl. eexists; split; [done|]. simpl. split.
    + intros Hfit. unfold fits_int64. apply bool_decide_eq_true. lia.
    + intros j. destruct (np_arange_lookup total stride j Hs)
        as (l' & Hl' & Hj).
      rewrite Hl in Hl'. by injection Hl' as <-.
  - intros explicit. unfold select_time_steps, slice_array, slice_step.
    rewrite decide_False by lia. rewrite decide_True by lia.
    eexists; split; [done|]. intros j. simpl.
    by rewrite stride_skip_lookup by lia.
  - reflexivity.
Qed.

Lemma select_time_steps_spec_witness :
  (∃ a, select_time_steps 10 None 2 = Ok a ∧
        (2 < 2 ^ 63 → integral a = true) ∧
        ∀ j : nat,
          elems a !! j = if decide (Z.of_nat j * 2 < 10)
                         then Some (Z.of_nat j * 2) else None) ∧
  (∀ explicit : list Z,
      ∃ a, select_time_steps 10 (Some explicit) 2 = Ok a ∧
           ∀ j : nat, elems a !! j = explicit !! (j * Z.to_nat 2)%nat) ∧
  select_time_steps 10 (Some [1; 3; 5; 7; 9]) 2 = Ok (int_array [1; 5; 9]).
Proof. apply (select_time_steps_spec 10 2); lia. Defined.

Lemma select_time_steps_zero_stride (total : Z) (explicit : option (list Z)) :
  select_time_steps total explicit 0
  = Err (match explicit with
         | Some _ => ValueError
         | None => ZeroDivisionError
         end).
Proof. by destruct explicit. Qed.

Lemma select_time_steps_negative_stride (total stride : Z)
    (explicit : option (list Z)) :
  stride < 0 →
  ∃ a, select_time_steps total explicit stride = Ok a ∧
       (explicit = None → 0 ≤ total → elems a = []) ∧
       (∀ time_steps, explicit = Some time_steps →
          ∀ j : nat,
            elems a !! j
            = reverse time_steps !! (j * Z.to_nat (- stride))%nat).
Proof.
  intros Hs. destruct explicit as [time_steps|]; simpl.
  - unfold slice_array, slice_step. simpl. rewrite decide_False by lia.
    rewrite decide_False by lia.
    eexists; split; [done|]. split; [done|].
    intros ? [= <-] j. simpl. by rewrite stride_skip_lookup by lia.
  - unfold np_arange. rewrite decide_False by lia.
    eexists; split; [done|]. split; [|done].
    intros _ Htot. simpl.
    replace (Z.max 0 (- ((0 - total) `div` stride))) with 0; [done|].
    assert (0 ≤ (0 - total) `div` stride); [|lia].
    replace ((0 - total) `div` stride) with (total `div` (- stride)).
    { apply Z.div_pos; lia. }
    rewrite <- (Z.div_opp_opp total (- stride)) by lia. f_equal; lia.
Qed.

Lemma select_every_time_step (total : nat) :
  select_time_steps (Z.of_nat total) None 1
  = Ok (int_array (seqZ 0 (Z.of_nat total))).
Proof.
  unfold select_time_steps, np_arange, int_array. simpl.
  change (fits_int64 1) with true. do 2 f_equal.
  rewrite Z.div_1_r.
  replace (Z.max 0 (- (0 - Z.of_nat total))) with (Z.of_nat total) by lia.
  rewrite <- (list_fmap_id (seqZ 0 (Z.of_nat total))) at 2.
  apply list_fmap_ext. intros _ k _. simpl. lia.
Qed.

(** C7, as the claim states it, fails: a negative stride is accepted.  With
    total=5 and stride=-1 the selection is empty when no explicit sequence
    is given, and the reversed sequence when one is. *)
Lemma negative_stride_not_rejected :
  ¬ (∀ (total : Z) (explicit : option (list Z)) (stride : Z),
        stride ≤ 0 → is_Err (select_time_steps total explicit stride)).
Proof.
  intros Hclaim.
  destruct (Hclaim 5 None (-1) ltac:(lia)) as [e He].
  vm_compute in He. discriminate He.
Qed.

(** C7, amended.  A zero stride fails whatever total and the explicit
    sequence are: ZeroDivisionError from the range when no sequence is
    given, ValueError from the slice when one is.  A negative stride does
    not fail: without an explicit sequence (and a non-negative total) the
    selection is empty, and with one it is every |stride|-th element
    counted from the last element backwards. *)
Theorem select_time_steps_nonpositive_stride (total : Z)
    (explicit : option (list Z)) :
  is_Err (select_time_steps total explicit 0) ∧
  select_time_steps 5 None 0 = Err ZeroDivisionError ∧
  ∀ stride, stride < 0 →
    ∃ a, select_time_steps total explicit stride = Ok a ∧
         (explicit = None → 0 ≤ total → elems a = []) ∧
         (∀ time_steps, explicit = Some time_steps →
            ∀ j : nat,
              elems a !! j
              = reverse time_steps !! (j * Z.to_nat (- stride))%nat).
Proof.
  split; [|split].
  - rewrite select_time_steps_zero_stride. by eexists.
  - reflexivity.
  - intros stride Hs. by apply select_time_steps_negative_stride.
Qed.

(** ** Node ordering *)

Section node_ordering.
Context {V : Type} `{PyLibs V}.

Lemma take_rows_length (idx : list nat) (c1 c2 : list V) :
  length c1 = length c2 →
  length (take_rows idx c1) = length (take_rows idx c2).
Proof.
  intros Hlen. unfold take_rows.
  induction idx as [|i idx IH]; simpl; [done|].
  destruct (decide (i < length c1)%nat) as [Hi|Hi].
  - destruct (lookup_lt_is_Some_2 c1 i Hi) as [v1 ->].
    destruct (lookup_lt_is_Some_2 c2 i ltac:(lia)) as [v2 ->].
    simpl. by f_equal.
  - rewrite (lookup_ge_None_2 c1 i) by lia.
    rewrite (lookup_ge_None_2 c2 i) by lia. done.
Qed.

Lemma sort_values_Ok (df : DataFrame V) (by_ : string) (keys : list V) :
  df !! by_ = Some keys →
  sort_values df by_ = Ok (take_rows (argsort keys) <$> df).
Proof. intros Hk. unfold sort_values, column. by rewrite Hk. Qed.

Lemma sort_values_missing (df : DataFrame V) (by_ : string) :
  df !! by_ = None → sort_values df by_ = Err (KeyError by_).
Proof. intros Hk. unfold sort_values, column. by rewrite Hk. Qed.

Lemma range_down_elem (n rr : nat) :
  rr ∈ range_down n ↔ (1 ≤ rr < n)%nat.
Proof.
  unfold range_down. rewrite elem_of_reverse, elem_of_seq. lia.
Qed.

Lemma river_distances_spec (x y : list V) (m : nat) (rrs : list nat) :
  length x = m → length y = m →
  Forall (λ rr, 1 ≤ rr < m)%nat rrs →
  ∀ d1, length d1 = m →
    ∃ d1', river_distances x y rrs d1 = Ok d1' ∧ length d1' = m ∧
           ∀ i, d1' !! i = if decide (S i ∈ rrs) then pair_distance x y i
                           else d1 !! i.
Proof.
  intros Hx Hy. induction 1 as [|rr rrs Hrr _ IH]; intros d1 Hd1.
  - exists d1. split; [done|]. split; [done|]. intros i.
    rewrite decide_False; [done|]. apply not_elem_of_nil.
  - destruct rr as [|r]; [lia|].
    destruct (lookup_lt_is_Some_2 x (S r) ltac:(lia)) as [x1 Hx1].
    destruct (lookup_lt_is_Some_2 y (S r) ltac:(lia)) as [y1 Hy1].
    destruct (lookup_lt_is_Some_2 x r ltac:(lia)) as [x2 Hx2].
    destruct (lookup_lt_is_Some_2 y r ltac:(lia)) as [y2 Hy2].
    simpl. rewrite Nat.sub_0_r, Hx1, Hy1, Hx2, Hy2. simpl.
    unfold list_setitem. rewrite decide_True by lia. simpl.
    destruct (IH (<[r := geodesic_meters (x1, y1) (x2, y2)]> d1))
      as (d1' & Hrun & Hlen & Hlook).
    { by rewrite length_insert. }
    exists d1'. split; [done|]. split; [done|]. intros i.
    rewrite Hlook. destruct (decide (S i ∈ rrs)) as [Hin|Hnin].
    + rewrite decide_True; [done|]. by right.
    + destruct (decide (i = r)) as [->|Hne].
      * rewrite decide_True by left.
        rewrite list_lookup_insert_eq by lia.
        unfold pair_distance. by rewrite Hx1, Hy1, Hx2, Hy2.
      * rewrite decide_False.
        { by rewrite list_lookup_insert_ne. }
        rewrite elem_of_cons. intros [[=]|]; [lia|done].
Qed.

(** What [sort_river_nodes] returns for a table with the three columns
    and a recognised axis: the columns rearranged by the argsort of the
    key column, and the distances of consecutive rows. *)
Lemma sort_river_nodes_Ok (fs : FS V) (path : string) (df : DataFrame V)
    (n : nat) (axis : Z) (by_ : string) (node0 lat0 lon0 keys : list V) :
  fs !! path = Some (CsvFile df) →
  wf_frame df n →
  df !! "Node" = Some node0 →
  df !! "Lat" = Some lat0 →
  df !! "Lon" = Some lon0 →
  (axis = 0 ∧ by_ = "Lon" ∨ axis = 1 ∧ by_ = "Lat") →
  df !! by_ = Some keys →
  let p := argsort keys in
  ∃ d1,
    sort_river_nodes fs path axis
    = Ok (<["Node" := take_rows p node0]>
            (<["Lat" := take_rows p lat0]>
               (<["Lon" := take_rows p lon0]>
                  (<["Distance" := d1]> ∅)))) ∧
    length d1 = length (take_rows p node0) ∧
    ∀ i, d1 !! i =
           if decide (S i < length (take_rows p node0))%nat
           then pair_distance (take_rows p lat0) (take_rows p lon0) i
           else replicate (length (take_rows p node0)) fzero !! i.
Proof.
  intros Hfs Hwf Hnode Hlat Hlon Haxis Hkeys p.
  assert (Hsort :
    (if decide (axis = 0) then sort_values df "Lon"
     else if decide (axis = 1) then sort_values df "Lat"
     else Err ValueError) = Ok (take_rows p <$> df)).
  { destruct Haxis as [[-> ->]|[-> ->]]; simpl;
      by rewrite (sort_values_Ok _ _ _ Hkeys). }
  set (m := length (take_rows p node0)).
  destruct (river_distances_spec (take_rows p lat0) (take_rows p lon0) m
              (range_down m)) with (d1 := replicate m fzero)
    as (d1 & Hrun & Hlen & Hlook).
  { apply take_rows_length.
    by rewrite (Hwf _ _ Hlat), (Hwf _ _ Hnode). }
  { apply take_rows_length.
    by rewrite (Hwf _ _ Hlon), (Hwf _ _ Hnode). }
  { apply Forall_forall. intros rr. by rewrite range_down_elem. }
  { by rewrite length_replicate. }
  exists d1. split; [|split; [done|]].
  - unfold sort_river_nodes, read_csv. rewrite Hfs. simpl.
    rewrite Hsort. simpl. unfold column.
    rewrite !lookup_fmap, Hlat, Hlon, Hnode. simpl.
    fold p. fold m. by rewrite Hrun.
  - intros i. rewrite Hlook.
    destruct (decide (S i < m)%nat) as [Hi|Hi].
    + rewrite decide_True; [done|]. apply range_down_elem. lia.
    + rewrite decide_False; [done|]. rewrite range_down_elem. lia.
Qed.

End node_ordering.

Section node_ordering_claims.
Context {V : Type} `{PyLibs V}.

(** C4. For a table with the three columns and a recognised axis, the
    Distance column has one slot per node; the slot of node i, for every
    i before the last, holds the geodesic distance in meters between
    node i+1 and node i of the sorted table; the slot of the last node
    holds 0. *)
Theorem sort_river_nodes_distances (fs : FS V) (path : string)
    (df : DataFrame V) (n : nat) (axis : Z) :
  fs !! path = Some (CsvFile df) →
  wf_frame df n →
  is_Some (df !! "Node") → is_Some (df !! "Lat") → is_Some (df !! "Lon") →
  axis = 0 ∨ axis = 1 →
  ∃ nxyd node lat lon d1,
    sort_river_nodes fs path axis = Ok nxyd ∧
    nxyd !! "Node" = Some node ∧ nxyd !! "Lat" = Some lat ∧
    nxyd !! "Lon" = Some lon ∧ nxyd !! "Distance" = Some d1 ∧
    length d1 = length node ∧
    (∀ i, (S i < length node)%nat →
       ∃ lat_i lon_i lat_next lon_next,
         lat !! i = Some lat_i ∧ lon !! i = Some lon_i ∧
         lat !! S i = Some lat_next ∧ lon !! S i = Some lon_next ∧
         d1 !! i
         = Some (geodesic_meters (lat_next, lon_next) (lat_i, lon_i))) ∧
    (node ≠ [] → last d1 = Some fzero).
Proof.
  intros Hfs Hwf [node0 Hnode] [lat0 Hlat] [lon0 Hlon] Haxis.
  assert (∃ by_ keys, (axis = 0 ∧ by_ = "Lon" ∨ axis = 1 ∧ by_ = "Lat") ∧
                      df !! by_ = Some keys) as (by_ & keys & Hby & Hkeys).
  { destruct Haxis as [->| ->]; [exists "Lon", lon0|exists "Lat", lat0];
      split; auto. }
  destruct (sort_river_nodes_Ok fs path df n axis by_ node0 lat0 lon0 keys)
    as (d1 & Hrun & Hlen & Hlook); try done.
  set (p := argsort keys) in *.
  assert (Hlenlat : length (take_rows p lat0) = length (take_rows p node0)).
  { apply take_rows_length. by rewrite (Hwf _ _ Hlat), (Hwf _ _ Hnode). }
  assert (Hlenlon : length (take_rows p lon0) = length (take_rows p node0)).
  { apply take_rows_length. by rewrite (Hwf _ _ Hlon), (Hwf _ _ Hnode). }
  eexists _, (take_rows p node0), (take_rows p lat0), (take_rows p lon0), d1.
  split; [exact Hrun|].
  do 4 (split; [by simplify_map_eq|]).
  split; [done|]. split.
  - intros i Hi.
    destruct (lookup_lt_is_Some_2 (take_rows p lat0) i ltac:(lia))
      as [lat_i Hlat_i].
    destruct (lookup_lt_is_Some_2 (take_rows p lon0) i ltac:(lia))
      as [lon_i Hlon_i].
    destruct (lookup_lt_is_Some_2 (take_rows p lat0) (S i) ltac:(lia))
      as [lat_next Hlat_next].
    destruct (lookup_lt_is_Some_2 (take_rows p lon0) (S i) ltac:(lia))
      as [lon_next Hlon_next].
    exists lat_i, lon_i, lat_next, lon_next.
    repeat (split; [done|]).
    rewrite Hlook, decide_True by done.
    unfold pair_distance.
    by rewrite Hlat_next, Hlon_next, Hlat_i, Hlon_i.
  - intros Hne. rewrite last_lookup, Hlook, Hlen.
    rewrite decide_False.
    + apply lookup_replicate_2.
      destruct (take_rows p node0); [done|simpl; lia].
    + destruct (take_rows p node0); [done|simpl; lia].
Qed.

(** C10. For a table that was parsed, an axis selector other than 0 and 1
    gives the invalid-axis error (ValueError) whatever columns the table
    has or lacks; a missing-column error (KeyError) is only returned
    under axis 0 or 1, where a table without the key column gives it. *)
Theorem invalid_axis_error_first (fs : FS V) (path : string)
    (df : DataFrame V) (axis : Z) :
  fs !! path = Some (CsvFile df) →
  (axis ≠ 0 → axis ≠ 1 → sort_river_nodes fs path axis = Err ValueError) ∧
  (∀ c, sort_river_nodes fs path axis = Err (KeyError c) →
        axis = 0 ∨ axis = 1) ∧
  (axis = 0 → df !! "Lon" = None →
   sort_river_nodes fs path axis = Err (KeyError "Lon")) ∧
  (axis = 1 → df !! "Lat" = None →
   sort_river_nodes fs path axis = Err (KeyError "Lat")).
Proof.
  intros Hfs. unfold sort_river_nodes, read_csv. rewrite Hfs. simpl.
  repeat split.
  - intros H0 H1. by rewrite !decide_False.
  - intros c. destruct (decide (axis = 0)); [by left|].
    destruct (decide (axis = 1)); [by right|]. done.
  - intros -> Hlon. simpl. by rewrite sort_values_missing.
  - intros -> Hlat. simpl. by rewrite sort_values_missing.
Qed.

End node_ordering_claims.

Section node_ordering_sorted.
Context {V : Type} `{SortContract V}.

(** C5. For a table with the three columns and axis 0 or 1, the rows of
    the result are the rows of the table in a rearranged order, and the
    column of the chosen coordinate (Lon for axis 0, Lat for axis 1) is
    non-decreasing; nothing is said of the other coordinate. *)
Theorem sort_river_nodes_sorted (fs : FS V) (path : string)
    (df : DataFrame V) (n : nat) (axis : Z) (node0 lat0 lon0 : list V) :
  fs !! path = Some (CsvFile df) →
  wf_frame df n →
  df !! "Node" = Some node0 →
  df !! "Lat" = Some lat0 →
  df !! "Lon" = Some lon0 →
  axis = 0 ∨ axis = 1 →
  ∃ nxyd p,
    sort_river_nodes fs path axis = Ok nxyd ∧
    p ≡ₚ seq 0 n ∧
    nxyd !! "Node" = Some (take_rows p node0) ∧
    nxyd !! "Lat" = Some (take_rows p lat0) ∧
    nxyd !! "Lon" = Some (take_rows p lon0) ∧
    (axis = 0 → Sorted fle (take_rows p lon0)) ∧
    (axis = 1 → Sorted fle (take_rows p lat0)).
Proof.
  intros Hfs Hwf Hnode Hlat Hlon Haxis.
  assert (∃ by_ keys, (axis = 0 ∧ by_ = "Lon" ∨ axis = 1 ∧ by_ = "Lat") ∧
                      df !! by_ = Some keys) as (by_ & keys & Hby & Hkeys).
  { destruct Haxis as [->| ->]; [exists "Lon", lon0|exists "Lat", lat0];
      split; auto. }
  destruct (sort_river_nodes_Ok fs path df n axis by_ node0 lat0 lon0 keys)
    as (d1 & Hrun & _); try done.
  eexists _, (argsort keys). split; [exact Hrun|].
  split. { rewrite argsort_perm. by rewrite (Hwf _ _ Hkeys). }
  do 3 (split; [by simplify_map_eq|]).
  split; intros ->; destruct Hby as [[? ->]|[? ->]]; try done;
    simplify_eq; apply argsort_sorted.
Qed.

End node_ordering_sorted.

(** ** The integer instance meets the contracts *)

#[global] Instance Z_float_order : FloatOrder Z.
Proof.
  split; simpl.
  - intros a. apply Z.ltb_irrefl.
  - intros a b c. rewrite !Z.ltb_lt. lia.
  - intros a b c. rewrite !Z.ltb_ge. lia.
Qed.

#[global] Instance key_le_total : Total key_le.
Proof. intros a b. unfold key_le. lia. Qed.

Lemma zip_seq_keys (keys : list Z) (o : nat) (pre : list Z) :
  length pre = o →
  Forall (λ ki : Z * nat, (pre ++ keys) !! ki.2 = Some ki.1)
         (zip keys (seq o (length keys))).
Proof.
  revert o pre. induction keys as [|k keys IH]; intros o pre Ho; simpl.
  - constructor.
  - constructor.
    + simpl. rewrite lookup_app_r by lia.
      by replace (o - length pre)%nat with 0%nat by lia.
    + specialize (IH (S o) (pre ++ [k])).
      rewrite <- app_assoc in IH. apply IH.
      rewrite length_app. simpl. lia.
Qed.

Lemma omap_lookup_keys (keys : list Z) (l : list (Z * nat)) :
  Forall (λ ki : Z * nat, keys !! ki.2 = Some ki.1) l →
  omap (λ i, keys !! i) l.*2 = l.*1.
Proof.
  induction 1 as [|[k i] l Hki _ IH]; simpl; [done|].
  simpl in Hki. rewrite Hki. simpl. by f_equal.
Qed.

#[global] Instance Z_sort_contract : SortContract Z.
Proof.
  split; simpl; intros keys; unfold Z_argsort.
  - rewrite merge_sort_Permutation.
    by rewrite snd_zip by (rewrite length_seq; lia).
  - rewrite omap_lookup_keys.
    + apply (Sorted_fmap fst key_le); [|apply Sorted_merge_sort, _].
      intros x y Hxy. unfold fle, key_le in *. simpl.
      apply Z.ltb_ge. done.
    + rewrite merge_sort_Permutation.
      apply (zip_seq_keys keys 0 []). done.
Qed.

(** ** The node ordering on the table of two nodes *)

Lemma river_east_first_wf : wf_frame river_east_first 2.
Proof.
  intros c col Hc. unfold river_east_first in Hc.
  repeat (apply lookup_insert_Some in Hc as [[_ <-]|[_ Hc]]; [done|]).
  done.
Qed.

Lemma sort_river_nodes_distances_witness :
  ∃ nxyd d1,
    sort_river_nodes fs_east_first "river.csv" 0 = Ok nxyd ∧
    nxyd !! "Distance" = Some d1 ∧
    length d1 = 2%nat ∧ last d1 = Some 0.
Proof.
  destruct (sort_river_nodes_distances fs_east_first "river.csv"
              river_east_first 2 0)
    as (nxyd & node & lat & lon & d1 & Hrun & Hnode & _ & _ & Hd1 & Hlen
        & _ & Hlast).
  - reflexivity.
  - exact river_east_first_wf.
  - eexists. reflexivity.
  - eexists. reflexivity.
  - eexists. reflexivity.
  - by left.
  - exists nxyd, d1. split; [done|]. split; [done|].
    assert (Hn : node = [2; 1]).
    { vm_compute in Hrun. injection Hrun as <-.
      vm_compute in Hnode. by injection Hnode as <-. }
    subst node. split; [done|]. by apply Hlast.
Defined.

Lemma sort_river_nodes_sorted_witness :
  ∃ nxyd lon,
    sort_river_nodes fs_east_first "river.csv" 0 = Ok nxyd ∧
    nxyd !! "Lon" = Some lon ∧ Sorted fle lon.
Proof.
  destruct (sort_river_nodes_sorted fs_east_first "river.csv"
              river_east_first 2 0 [1; 2] [0; 0] [2; 1])
    as (nxyd & p & Hrun & _ & _ & _ & Hlon & Hsorted & _).
  - reflexivity.
  - exact river_east_first_wf.
  - reflexivity.
  - reflexivity.
  - reflexivity.
  - by left.
  - exists nxyd, (take_rows p [2; 1]). auto.
Defined.

Lemma invalid_axis_error_first_witness :
  sort_river_nodes (<["river.csv" := CsvFile ∅]> ∅ : FS Z) "river.csv" 2
  = Err ValueError.
Proof.
  apply (invalid_axis_error_first (<["river.csv" := CsvFile ∅]> ∅)
           "river.csv" ∅ 2); [reflexivity|lia|lia].
Defined.

(** ** Nearest grid index *)

Section argmin.
Context {V : Type} (lt : V → V → bool) (isnan : V → bool).
Hypothesis lt_irrefl : ∀ a, lt a a = false.
Hypothesis lt_trans : ∀ a b c, lt a b = true → lt b c = true → lt a c = true.
Hypothesis lt_negtrans :
  ∀ a b c, isnan b = false → lt a b = false → lt b c = false →
           lt a c = false.

(** The invariant of the loop on an array without NaN: [mp], at position
    [min_ind], is the first least element of the part [pre] already
    visited. *)
Lemma argmin_loop_first_minimum (ip pre : list V) (mp : V) (min_ind : nat) :
  Forall (λ x, isnan x = false) pre →
  Forall (λ x, isnan x = false) ip →
  pre !! min_ind = Some mp →
  (∀ j x, pre !! j = Some x → lt x mp = false) →
  (∀ j x, (j < min_ind)%nat → pre !! j = Some x → lt mp x = true) →
  first_minimum lt (pre ++ ip)
    (argmin_loop lt isnan mp min_ind (length pre) ip).
Proof.
  revert pre mp min_ind.
  induction ip as [|x ip IH]; intros pre mp min_ind Hpre Hip Hmp Hleast Hfirst;
    simpl.
  - rewrite app_nil_r. by exists mp.
  - pose proof (lookup_lt_Some _ _ _ Hmp) as Hlt.
    apply Forall_cons in Hip as [Hx Hip]. rewrite Hx.
    assert (Hpre' : Forall (λ x, isnan x = false) (pre ++ [x])).
    { apply Forall_app. split; [done|]. by apply Forall_singleton. }
    replace (pre ++ x :: ip) with ((pre ++ [x]) ++ ip)
      by by rewrite <- app_assoc.
    replace (S (length pre)) with (length (pre ++ [x]))
      by (rewrite length_app; simpl; lia).
    destruct (lt x mp) eqn:Hxmp.
    + apply IH; [done|done|..].
      * by rewrite lookup_app_r, Nat.sub_diag by lia.
      * intros j y Hy. apply lookup_snoc_Some in Hy as [[Hj Hy]|[Hj <-]].
        -- destruct (lt y x) eqn:Hyx; [|done].
           pose proof (lt_trans _ _ _ Hyx Hxmp) as Hc.
           by rewrite (Hleast _ _ Hy) in Hc.
        -- apply lt_irrefl.
      * intros j y Hj Hy. rewrite lookup_app_l in Hy by lia.
        destruct (lt x y) eqn:Hxy; [done|].
        assert (Hnan : isnan y = false).
        { rewrite Forall_forall in Hpre. apply Hpre.
          by eapply list_elem_of_lookup_2. }
        by rewrite (lt_negtrans _ _ _ Hnan Hxy (Hleast _ _ Hy)) in Hxmp.
    + apply IH; [done|done|..].
      * by rewrite lookup_app_l by lia.
      * intros j y Hy. apply lookup_snoc_Some in Hy as [[Hj Hy]|[Hj <-]].
        -- by eapply Hleast.
        -- done.
      * intros j y Hj Hy. rewrite lookup_app_l in Hy by lia.
        by eapply Hfirst.
Qed.

Lemma np_argmin_first_minimum (a : list V) :
  a ≠ [] → Forall (λ x, isnan x = false) a →
  ∃ flat, np_argmin lt isnan a = Ok flat ∧ first_minimum lt a flat.
Proof.
  destruct a as [|x ip]; [done|]. intros _ [Hx Hip]%Forall_cons.
  simpl. rewrite Hx. eexists; split; [done|].
  apply (argmin_loop_first_minimum ip [x] x 0).
  - by apply Forall_singleton.
  - done.
  - done.
  - intros [|j] y; simpl; [|done]. intros [= <-]. apply lt_irrefl.
  - intros j y Hj. lia.
Qed.

Lemma first_minimum_lt_length (a : list V) (m : nat) :
  first_minimum lt a m → (m < length a)%nat.
Proof. intros (vm & Hvm & _). by eapply lookup_lt_Some. Qed.

End argmin.

Section resolver.
Context {V : Type} `{FloatOrder V}.

Lemma resolve_index_spec (longitude latitude : ndarray V) (d : nat)
    (rest : list nat) (q : V * V) :
  shape longitude = d :: rest →
  length (data longitude) = shape_size (d :: rest) →
  length (data latitude) = shape_size (d :: rest) →
  (0 < shape_size (d :: rest))%nat →
  Forall (λ x, fisnan x = false)
    (data (distances longitude latitude q.1 q.2)) →
  ∃ flat,
    resolve_index longitude latitude q = Ok (flat `div` shape_size rest)%nat ∧
    first_minimum flt (data (distances longitude latitude q.1 q.2)) flat.
Proof.
  intros Hshape Hlon Hlat Hsize Hnan.
  set (a := data (distances longitude latitude q.1 q.2)) in *.
  assert (Hlen : length a = shape_size (d :: rest)).
  { unfold a, distances. cbn [data].
    rewrite length_zip_with, Hlon, Hlat. lia. }
  destruct (np_argmin_first_minimum flt fisnan flt_irrefl flt_trans
              flt_negtrans a) as (flat & Hargmin & Hmin); [|done|].
  { intros Ha. rewrite Ha in Hlen.
    change (length (@nil V)) with 0%nat in Hlen. lia. }
  exists flat. split; [|done].
  unfold resolve_index. fold a. rewrite Hargmin. simpl.
  unfold np_unravel_index. rewrite Hshape.
  pose proof (first_minimum_lt_length flt a flat Hmin) as Hflat.
  rewrite decide_True by lia. done.
Qed.

(** C2, amended.  Take a grid of shape d x rest and a list of query
    points for which no computed distance
    sqrt((glon - lon)^2 + (glat - lat)^2) is NaN.  On a non-empty grid the
    mapping has one index per query, in the order of the queries and
    without de-duplication.  The flat position chosen for a query is the
    first one, in grid iteration order, at which the computed distance is
    least; there is no threshold.  The index stored is that position
    divided by the size of a row: the position itself on a 1-D grid, the
    row of the cell on a 2-D grid.  On a grid without cells the first
    query raises ValueError. *)
Theorem resolve_indices_spec (longitude latitude : ndarray V) (d : nat)
    (rest : list nat) (queries : list (V * V)) :
  shape longitude = d :: rest →
  length (data longitude) = shape_size (d :: rest) →
  length (data latitude) = shape_size (d :: rest) →
  (∀ q, q ∈ queries →
        Forall (λ x, fisnan x = false)
          (data (distances longitude latitude q.1 q.2))) →
  ((0 < shape_size (d :: rest))%nat →
   ∃ idx,
     resolve_indices longitude latitude queries = Ok idx ∧
     length idx = length queries ∧
     ∀ k q, queries !! k = Some q →
       ∃ flat,
         first_minimum flt
           (data (distances longitude latitude q.1 q.2)) flat ∧
         idx !! k = Some (flat `div` shape_size rest)%nat ∧
         (rest = [] → idx !! k = Some flat)) ∧
  (shape_size (d :: rest) = 0%nat → queries ≠ [] →
   resolve_indices longitude latitude queries = Err ValueError).
Proof.
  intros Hshape Hlon Hlat Hnan. split.
  - intros Hsize.
    destruct (mapM_is_Ok (resolve_index longitude latitude) queries)
      as [idx Hidx].
    { apply Forall_forall. intros q Hq.
      destruct (resolve_index_spec longitude latitude d rest q)
        as (flat & Hrun & _); try done; [by apply Hnan|by eexists]. }
    exists idx. split; [done|]. split; [by eapply mapM_Ok_length|].
    intros k q Hk.
    destruct (mapM_Ok_lookup _ _ _ _ _ Hidx Hk) as (i & Hi & Hrun).
    destruct (resolve_index_spec longitude latitude d rest q)
      as (flat & Hq & Hmin); try done.
    { apply Hnan. by eapply list_elem_of_lookup_2. }
    rewrite Hq in Hrun. injection Hrun as <-.
    exists flat. split; [done|]. split; [done|].
    intros ->. rewrite Hi. f_equal. simpl. apply Nat.div_1_r.
  - intros Hsize Hqueries. destruct queries as [|q queries]; [done|].
    rewrite Hsize in Hlon, Hlat.
    apply length_zero_iff_nil in Hlon, Hlat.
    unfold resolve_indices. simpl. unfold resolve_index, distances.
    cbn [data]. by rewrite Hlon, Hlat.
Qed.

End resolver.

(** Comparison on binary64 is comparison of the numbers denoted. *)
Lemma Prim2SF_not_nan (x : float) :
  PrimFloat.is_nan x = false → Prim2SF x ≠ S754_nan.
Proof.
  intros Hx. unfold Prim2SF. rewrite Hx.
  destruct (PrimFloat.is_zero x); [discriminate|].
  destruct (PrimFloat.is_infinity x); [discriminate|].
  destruct (Z.frexp x) as [r e].
  destruct (shr_fexp _ _ _ _ _) as [shr e'].
  destruct (shr_m shr); discriminate.
Qed.

Ltac sf_compare :=
  repeat match goal with
  | |- context [PosDef.Pos.compare_cont Eq ?x ?y] =>
      change (PosDef.Pos.compare_cont Eq x y) with (x ?= y)%positive
  end;
  intros;
  repeat match goal with
  | |- context [(?a ?= ?b)%Z] => destruct (Z.compare_spec a b)
  | |- context [(?a ?= ?b)%positive] => destruct (Pos.compare_spec a b)
  | H : context [(?a ?= ?b)%Z] |- _ => destruct (Z.compare_spec a b)
  | H : context [(?a ?= ?b)%positive] |- _ => destruct (Pos.compare_spec a b)
  end;
  simpl in *; try discriminate; try reflexivity; try lia.

Lemma SFltb_irrefl (a : spec_float) : SFltb a a = false.
Proof.
  unfold SFltb, SFcompare.
  destruct a as [[]|[]| |[] m e]; try reflexivity;
    change (PosDef.Pos.compare_cont Eq m m) with (m ?= m)%positive;
    rewrite Z.compare_refl, Pos.compare_refl; reflexivity.
Qed.

Lemma SFltb_trans (a b c : spec_float) :
  SFltb a b = true → SFltb b c = true → SFltb a c = true.
Proof.
  unfold SFltb, SFcompare.
  destruct a as [[]|[]| |[] m1 e1], b as [[]|[]| |[] m2 e2],
    c as [[]|[]| |[] m3 e3]; try discriminate; try reflexivity; sf_compare.
Qed.

Lemma SFltb_negtrans (a b c : spec_float) :
  b ≠ S754_nan →
  SFltb a b = false → SFltb b c = false → SFltb a c = false.
Proof.
  unfold SFltb, SFcompare.
  destruct a as [[]|[]| |[] m1 e1], b as [[]|[]| |[] m2 e2],
    c as [[]|[]| |[] m3 e3]; try discriminate; try reflexivity;
    try (intros Hb; contradiction); sf_compare.
Qed.

#[global] Instance binary64_order : FloatOrder float.
Proof.
  split; simpl.
  - intros a. rewrite ltb_spec. apply SFltb_irrefl.
  - intros a b c. rewrite !ltb_spec. apply SFltb_trans.
  - intros a b c Hb. rewrite !ltb_spec. apply SFltb_negtrans.
    by apply Prim2SF_not_nan.
Qed.

(** C2, as the claim states it, fails in three ways.  On a 2-D grid what
    is stored is the first component of the cell's index: on the 2 x 2
    grid the nearest cell of the query (3,0) is at flat position 1 and
    that of (0,4) at position 2, and the mapping is [0; 1]; cell 0 is at
    distance 3 from (3,0).  What is minimised is the rounded square root,
    not the squared distance: of the two cells on the meridian 1, the
    second is nearer to (0,0), with squared distance 1 against 1 + 2^-52,
    but both square roots round to 1 and the first cell is chosen.  And
    on a grid without cells no match is returned. *)
Lemma resolve_indices_not_nearest_cell :
  (resolve_indices grid2x2_longitude64 grid2x2_latitude64
     [(3%float, 0%float); (0%float, 4%float)] = Ok [0; 1]%nat ∧
   first_minimum flt
     (zip_with (squared_distance_to 3%float 0%float)
        (data grid2x2_longitude64) (data grid2x2_latitude64)) 1 ∧
   ¬ first_minimum flt
       (zip_with (squared_distance_to 3%float 0%float)
          (data grid2x2_longitude64) (data grid2x2_latitude64)) 0) ∧
  (resolve_indices meridian_longitude meridian_latitude
     [(0%float, 0%float)] = Ok [0%nat] ∧
   first_minimum flt
     (zip_with (squared_distance_to 0%float 0%float)
        (data meridian_longitude) (data meridian_latitude)) 1 ∧
   ¬ first_minimum flt
       (zip_with (squared_distance_to 0%float 0%float)
          (data meridian_longitude) (data meridian_latitude)) 0) ∧
  resolve_indices {| shape := [0%nat]; data := [] |}
    {| shape := [0%nat]; data := [] |} [(0%float, 0%float)]
  = Err ValueError.
Proof.
  split; [|split]; [| |reflexivity].
  - split; [vm_compute; reflexivity|]. split.
    + eexists. split; [reflexivity|]. split.
      * intros [|[|[|[|j]]]] x; simpl; intros [= <-]; vm_compute; reflexivity.
      * intros [|[|j]] x Hj; [|lia..].
        simpl. intros [= <-]. vm_compute. reflexivity.
    + intros (vm & Hvm & Hleast & _). injection Hvm as <-.
      specialize (Hleast 1%nat _ eq_refl). vm_compute in Hleast.
      discriminate Hleast.
  - split; [vm_compute; reflexivity|]. split.
    + eexists. split; [reflexivity|]. split.
      * intros [|[|j]] x; simpl; intros [= <-]; vm_compute; reflexivity.
      * intros [|[|j]] x Hj; [|lia..].
        simpl. intros [= <-]. vm_compute. reflexivity.
    + intros (vm & Hvm & Hleast & _). injection Hvm as <-.
      specialize (Hleast 1%nat _ eq_refl). vm_compute in Hleast.
      discriminate Hleast.
Qed.

Lemma resolve_indices_spec_witness :
  ∃ idx,
    resolve_indices meridian_longitude meridian_latitude
      [(1%float, 0%float); (1%float, 1%float)] = Ok idx ∧
    length idx = 2%nat.
Proof.
  destruct (resolve_indices_spec meridian_longitude meridian_latitude 2 []
              [(1%float, 0%float); (1%float, 1%float)])
    as [Hcells _].
  - reflexivity.
  - reflexivity.
  - reflexivity.
  - intros q [->|[->|[]%elem_of_nil]%elem_of_cons]%elem_of_cons;
      repeat constructor.
  - destruct Hcells as (idx & Hrun & Hlen & _); [simpl; lia|].
    by exists idx.
Defined.

(** ** Indexing *)

Lemma py_index_lt (n : nat) (i : Z) :
  - Z.of_nat n ≤ i < Z.of_nat n → (py_index n i < n)%nat.
Proof. intros Hi. unfold py_index. case_decide; lia. Qed.

Lemma py_index_nat (n k : nat) : py_index n (Z.of_nat k) = k.
Proof. unfold py_index. rewrite decide_False by lia. lia. Qed.

Lemma np_getitem_spec {A} (a : list A) (i : Z) :
  - Z.of_nat (length a) ≤ i < Z.of_nat (length a) →
  ∃ x, np_getitem a i = Ok x ∧ a !! py_index (length a) i = Some x.
Proof.
  intros Hi.
  destruct (lookup_lt_is_Some_2 a (py_index (length a) i)) as [x Hx].
  { by apply py_index_lt. }
  exists x. split; [|done]. unfold np_getitem, py_index in *.
  destruct (decide (i < 0)).
  - rewrite decide_False by lia. rewrite decide_True by lia. by rewrite Hx.
  - rewrite decide_True by lia. by rewrite Hx.
Qed.

Lemma np_take_spec {A} (a : list A) (idx : list Z) :
  Forall (λ i, - Z.of_nat (length a) ≤ i < Z.of_nat (length a)) idx →
  ∃ out, np_take a idx = Ok out ∧ length out = length idx ∧
         ∀ k i, idx !! k = Some i →
                out !! k = a !! py_index (length a) i ∧ is_Some (out !! k).
Proof.
  intros Hidx. destruct (mapM_is_Ok (np_getitem a) idx) as [out Hout].
  { eapply Forall_impl; [exact Hidx|]. intros i Hi.
    destruct (np_getitem_spec a i Hi) as (x & Hx & _). by eexists. }
  exists out. split; [done|]. split; [by eapply mapM_Ok_length|].
  intros k i Hk.
  destruct (mapM_Ok_lookup _ _ _ _ _ Hout Hk) as (y & Hy & Hrun).
  rewrite Forall_forall in Hidx.
  destruct (np_getitem_spec a i) as (x & Hx & Hlook).
  { apply Hidx. by eapply list_elem_of_lookup_2. }
  rewrite Hx in Hrun. injection Hrun as <-. by rewrite Hy, Hlook.
Qed.

Lemma np_take_nat_spec {A} (a : list A) (idx : list nat) :
  Forall (λ n, n < length a)%nat idx →
  ∃ out, np_take a (Z.of_nat <$> idx) = Ok out ∧ length out = length idx ∧
         ∀ k n, idx !! k = Some n → out !! k = a !! n ∧ is_Some (out !! k).
Proof.
  intros Hidx. destruct (np_take_spec a (Z.of_nat <$> idx))
    as (out & Hout & Hlen & Hlook).
  { apply Forall_fmap. eapply Forall_impl; [exact Hidx|].
    intros n Hn. unfold compose. simpl in *. lia. }
  exists out. split; [done|]. rewrite length_fmap in Hlen. split; [done|].
  intros k n Hk. rewrite <- (py_index_nat (length a) n).
  apply Hlook. by rewrite list_lookup_fmap, Hk.
Qed.

(** ** The subset writer *)

Section writer.
Context {V : Type} `{PyLibs V}.

Lemma read_slab_spec (var : list (list (list V))) (ntime nnode nlevel : nat)
    (t : Z) (idx : list nat) :
  wf_variable ntime nnode nlevel var →
  - Z.of_nat ntime ≤ t < Z.of_nat ntime →
  Forall (λ n, n < nnode)%nat idx →
  idx ≠ [] →
  ∃ rows, read_slab var t (Z.of_nat <$> idx) = Ok rows ∧
          length rows = length idx ∧
          ∀ k n, idx !! k = Some n →
                 rows !! k = source_row var t n ∧ is_Some (rows !! k).
Proof.
  intros [Hlen Hslabs] Ht Hidx Hne.
  destruct (np_getitem_spec var t) as (slab & Hget & Hslab); [lia|].
  rewrite Forall_forall in Hslabs.
  destruct (Hslabs slab) as [Hnode _].
  { by eapply list_elem_of_lookup_2. }
  destruct (np_take_nat_spec slab idx) as (rows & Hrows & Hl & Hlook).
  { by rewrite Hnode. }
  exists rows. split.
  { destruct idx as [|n idx]; [done|].
    unfold read_slab. rewrite fmap_cons, Hget. simpl.
    by rewrite fmap_cons in Hrows. }
  split; [done|]. intros k n Hk. unfold source_row. rewrite Hslab. simpl.
  by apply Hlook.
Qed.

Lemma copy_slices_spec (dataset : Dataset V) (idx : list Z)
    (time_steps : list Z) :
  Forall (λ t, is_Ok (read_slab (salinity dataset) t idx) ∧
               is_Ok (read_slab (temperature dataset) t idx)) time_steps →
  ∀ (o : nat) (ns nt : list (list (list V))),
    (o + length time_steps ≤ length ns)%nat →
    (o + length time_steps ≤ length nt)%nat →
    ∃ ns' nt',
      copy_slices dataset idx (zip (seq o (length time_steps)) time_steps)
        ns nt = Ok (ns', nt') ∧
      length ns' = length ns ∧ length nt' = length nt ∧
      (∀ j, (j < o)%nat → ns' !! j = ns !! j ∧ nt' !! j = nt !! j) ∧
      (∀ i t, time_steps !! i = Some t →
         ∃ sal tem,
           read_slab (salinity dataset) t idx = Ok sal ∧
           read_slab (temperature dataset) t idx = Ok tem ∧
           ns' !! (o + i)%nat = Some (slab_to_float32 sal) ∧
           nt' !! (o + i)%nat = Some (slab_to_float32 tem)).
Proof.
  induction 1 as [|t ts [[sal Hsal] [tem Htem]] _ IH]; intros o ns nt Hns Hnt.
  - exists ns, nt. repeat split; try done.
  - simpl in Hns, Hnt. simpl. rewrite Hsal. simpl.
    unfold list_setitem. rewrite decide_True by lia. simpl.
    rewrite Htem. simpl. rewrite decide_True by lia. simpl.
    destruct (IH (S o) (<[o := slab_to_float32 sal]> ns)
                (<[o := slab_to_float32 tem]> nt))
      as (ns' & nt' & Hrun & Hlns & Hlnt & Hpre & Hslots).
    { rewrite length_insert. lia. }
    { rewrite length_insert. lia. }
    exists ns', nt'. rewrite !length_insert in *.
    split; [done|]. split; [done|]. split; [done|]. split.
    + intros j Hj. destruct (Hpre j ltac:(lia)) as [-> ->].
      by rewrite !list_lookup_insert_ne by lia.
    + intros [|i] t' Hi; simpl in Hi.
      * injection Hi as <-. exists sal, tem.
        split; [done|]. split; [done|].
        rewrite Nat.add_0_r. destruct (Hpre o ltac:(lia)) as [-> ->].
        by rewrite !list_lookup_insert_eq by lia.
      * destruct (Hslots i t' Hi) as (sal' & tem' & ? & ? & Hs & Ht).
        exists sal', tem'.
        by replace (o + S i)%nat with (S o + i)%nat by lia.
Qed.

Lemma slab_to_float32_lookup (slab : list (list V)) (k : nat) :
  slab_to_float32 slab !! k = fmap to_float32 <$> slab !! k.
Proof. unfold slab_to_float32. by rewrite list_lookup_fmap. Qed.

Lemma length_slab_to_float32 (slab : list (list V)) :
  length (slab_to_float32 slab) = length slab.
Proof. unfold slab_to_float32. by rewrite length_fmap. Qed.

End writer.

Section writer_result.
Context {V : Type} `{PyLibs V}.

Lemma write_subset_Ok (dataset : Dataset V) (idx : list nat)
    (time_steps : list Z) :
  wf_dataset dataset →
  Forall (λ n, n < dim_node dataset)%nat idx →
  Forall (λ t, - Z.of_nat (dim_time dataset) ≤ t
               < Z.of_nat (dim_time dataset)) time_steps →
  idx ≠ [] ∨ time_steps = [] →
  ∃ new, write_subset dataset idx (int_array time_steps) = Ok new ∧
         subset_of dataset idx time_steps new.
Proof.
  intros (Hlon & Hlat & Hdepth & Hlevel & Htime & Hsal & Htem & [u Hu])
    Hidx Hts Hsome.
  assert (Hne : ∀ t, t ∈ time_steps → idx ≠ []).
  { intros t Ht. destruct Hsome as [Hne|Hnil]; [done|].
    rewrite Hnil in Ht. by inversion Ht. }
  destruct (np_take_nat_spec (longitude dataset) idx)
    as (nlon & Hnlon & Hllon & Hklon); [by rewrite Hlon|].
  destruct (np_take_nat_spec (latitude dataset) idx)
    as (nlat & Hnlat & Hllat & Hklat); [by rewrite Hlat|].
  destruct (np_take_nat_spec (total_depth dataset) idx)
    as (ndep & Hndep & Hldep & Hkdep); [by rewrite Hdepth|].
  destruct (np_take_spec (time dataset) time_steps)
    as (ntim & Hntim & Hltim & Hktim); [by rewrite Htime|].
  assert (Hslabs : ∀ t, t ∈ time_steps →
    - Z.of_nat (dim_time dataset) ≤ t < Z.of_nat (dim_time dataset) →
    ∃ sal tem,
      read_slab (salinity dataset) t (Z.of_nat <$> idx) = Ok sal ∧
      read_slab (temperature dataset) t (Z.of_nat <$> idx) = Ok tem ∧
      length sal = length idx ∧ length tem = length idx ∧
      ∀ k n, idx !! k = Some n →
        sal !! k = source_row (salinity dataset) t n ∧
        tem !! k = source_row (temperature dataset) t n).
  { intros t Hin Ht.
    destruct (read_slab_spec _ _ _ _ t idx Hsal Ht Hidx (Hne t Hin))
      as (sal & Hrs & Hls & Hks).
    destruct (read_slab_spec _ _ _ _ t idx Htem Ht Hidx (Hne t Hin))
      as (tem & Hrt & Hlt & Hkt).
    exists sal, tem. repeat (split; [done|]).
    intros k n Hk. split; [by apply Hks|by apply Hkt]. }
  set (empty := replicate (length time_steps)
                  (replicate (length idx)
                     (replicate (length (level dataset)) nc_fill))).
  destruct (copy_slices_spec dataset (Z.of_nat <$> idx) time_steps)
    with (o := 0%nat) (ns := empty) (nt := empty)
    as (ns & nt & Hrun & Hlns & Hlnt & _ & Hslots).
  { rewrite Forall_forall in Hts. apply Forall_forall. intros t Hin.
    destruct (Hslabs t Hin (Hts t Hin)) as (sal & tem & -> & -> & _).
    split; by eexists. }
  { unfold empty. rewrite length_replicate. lia. }
  { unfold empty. rewrite length_replicate. lia. }
  unfold empty in Hlns, Hlnt. rewrite length_replicate in Hlns, Hlnt.
  eexists. split.
  { unfold write_subset, np_take_array. rewrite Hu. simpl.
    rewrite Hnlon. simpl. rewrite Hnlat. simpl. rewrite Hndep. simpl.
    rewrite Hntim. simpl. unfold enumerate. fold empty.
    rewrite Hrun. simpl. reflexivity. }
  unfold subset_of. simpl. rewrite length_fmap.
  do 10 (split; [done|]). split; [|split].
  - intros k n Hk. destruct (Hklon k n Hk) as [-> _].
    destruct (Hklat k n Hk) as [-> _].
    destruct (Hkdep k n Hk) as [Hd _].
    by rewrite list_lookup_fmap, Hd.
  - intros i t Hi. destruct (Hktim i t Hi) as [-> _]. by rewrite Htime.
  - intros i t Hi.
    destruct (Hslots i t Hi) as (sal & tem & Hrs & Hrt & Hns & Hnt).
    rewrite Forall_forall in Hts.
    destruct (Hslabs t) as (sal' & tem' & Hrs' & Hrt' & Hls & Hlt & Hk).
    { by eapply list_elem_of_lookup_2. }
    { apply Hts. by eapply list_elem_of_lookup_2. }
    rewrite Hrs in Hrs'. rewrite Hrt in Hrt'. simplify_eq.
    exists (slab_to_float32 sal'), (slab_to_float32 tem').
    simpl in Hns, Hnt. rewrite !length_slab_to_float32.
    do 4 (split; [done|]). intros k n Hkn.
    destruct (Hk k n Hkn) as [<- <-].
    by rewrite !slab_to_float32_lookup.
Qed.

(** C1, amended. For a source whose variables have the shapes of its
    dimensions, a non-empty list of node indices within the node dimension
    and time indices within the time dimension, [write_subset] returns a
    dataset with dimensions
    node = number of node indices, level = the source's level count and
    time = number of selected time indices.  At output time slot i, for the
    i-th selected time index t, row k of the salinity and of the
    temperature slab is row idx[k] of the source slab of time t, every
    level, cast to single precision.  Longitude, latitude and total_depth
    at output node k are the source's at idx[k] (total_depth in single
    precision, as its variable is declared), time at slot i is the
    source's at t, and level is the source's in single precision. *)
Theorem write_subset_spec (dataset : Dataset V) (idx : list nat)
    (time_steps : list Z) :
  wf_dataset dataset →
  Forall (λ n, n < dim_node dataset)%nat idx →
  Forall (λ t, - Z.of_nat (dim_time dataset) ≤ t
               < Z.of_nat (dim_time dataset)) time_steps →
  idx ≠ [] →
  ∃ new,
    write_subset dataset idx (int_array time_steps) = Ok new ∧
    dim_node new = length idx ∧
    dim_level new = length (level dataset) ∧
    dim_time new = length time_steps ∧
    level new = to_float32 <$> level dataset ∧
    (∀ i t, time_steps !! i = Some t →
       time new !! i = time dataset !! py_index (dim_time dataset) t ∧
       ∃ sal tem,
         salinity new !! i = Some sal ∧ temperature new !! i = Some tem ∧
         length sal = length idx ∧ length tem = length idx ∧
         ∀ k n, idx !! k = Some n →
           sal !! k
           = fmap (M := list) to_float32
               <$> source_row (salinity dataset) t n ∧
           tem !! k
           = fmap (M := list) to_float32
               <$> source_row (temperature dataset) t n) ∧
    (∀ k n, idx !! k = Some n →
       longitude new !! k = longitude dataset !! n ∧
       latitude new !! k = latitude dataset !! n ∧
       total_depth new !! k = to_float32 <$> total_depth dataset !! n).
Proof.
  intros Hwf Hidx Hts Hne.
  destruct (write_subset_Ok dataset idx time_steps Hwf Hidx Hts (or_introl Hne))
    as (new & Hrun & Hn & Hl & Ht & Hlev & _ & _ & _ & _ & _ & _
        & Hnode & Htime & Hslab).
  destruct Hwf as (_ & _ & _ & Hlevel & _).
  exists new. split; [done|]. split; [done|].
  split; [by rewrite Hl, Hlevel|]. split; [done|]. split; [done|].
  split; [|done]. intros i t Hi. split; [by apply Htime|by apply Hslab].
Qed.

End writer_result.

(** ** The whole run *)

Section create_subset.
Context {V : Type} `{PyLibs V}.

(** The stages of a run that succeeds. *)
Lemma create_subset_nc_Ok (fs fs' : FS V) (nc_file river_file : string)
    (sort_LonLat : Z) (output_file : string) (time_steps : option (list Z))
    (save_frequency : Z) :
  create_subset_nc fs nc_file river_file sort_LonLat output_file time_steps
    save_frequency = Ok fs' ↔
  ∃ dataset river_nodes river_lons river_lats river_nodes_idx selected new,
    open_dataset fs nc_file = Ok dataset ∧
    sort_river_nodes fs river_file sort_LonLat = Ok river_nodes ∧
    column river_nodes "Lon" = Ok river_lons ∧
    column river_nodes "Lat" = Ok river_lats ∧
    resolve_indices
      {| shape := [length (longitude dataset)]; data := longitude dataset |}
      {| shape := [length (latitude dataset)]; data := latitude dataset |}
      (zip river_lons river_lats) = Ok river_nodes_idx ∧
    select_time_steps (Z.of_nat (length (time dataset))) time_steps
      save_frequency = Ok selected ∧
    output_file ≠ nc_file ∧
    write_subset dataset river_nodes_idx selected = Ok new ∧
    fs' = <[output_file := NcFile new]> fs.
Proof.
  unfold create_subset_nc, create_dataset. split.
  - intros (dataset & Hd & (river_nodes & Hr & (lons & Hlons & (lats & Hlats
      & (idx & Hidx & (sel & Hsel & Hrest)%bind_Ok
      )%bind_Ok)%bind_Ok)%bind_Ok)%bind_Ok)%bind_Ok.
    destruct (decide (output_file = nc_file)) as [|Hout]; [done|].
    simpl in Hrest. apply bind_Ok in Hrest as (new & Hnew & [= <-]).
    by exists dataset, river_nodes, lons, lats, idx, sel, new.
  - intros (dataset & river_nodes & lons & lats & idx & sel & new & Hd & Hr
      & Hlons & Hlats & Hidx & Hsel & Hout & Hnew & ->).
    rewrite Hd. simpl. rewrite Hr. simpl. rewrite Hlons. simpl.
    rewrite Hlats. simpl. rewrite Hidx. simpl. rewrite Hsel. simpl.
    rewrite decide_False by done. simpl. rewrite Hnew. done.
Qed.

(** Writing over the source is refused, whatever the other arguments,
    once the inputs were read and the selections made. *)
Lemma create_subset_nc_same_path (fs fs' : FS V) (nc_file river_file : string)
    (sort_LonLat : Z) (time_steps : option (list Z)) (save_frequency : Z) :
  create_subset_nc fs nc_file river_file sort_LonLat nc_file time_steps
    save_frequency ≠ Ok fs'.
Proof.
  intros (dataset & river_nodes & lons & lats & idx & sel & new & _ & _
      & _ & _ & _ & _ & Hout & _)%create_subset_nc_Ok.
  done.
Qed.

Lemma open_dataset_ext (fs1 fs2 : FS V) (path : string) :
  fs1 !! path = fs2 !! path → open_dataset fs1 path = open_dataset fs2 path.
Proof. unfold open_dataset. by intros ->. Qed.

Lemma sort_river_nodes_ext (fs1 fs2 : FS V) (path : string) (axis : Z) :
  fs1 !! path = fs2 !! path →
  sort_river_nodes fs1 path axis = sort_river_nodes fs2 path axis.
Proof. unfold sort_river_nodes, read_csv. by intros ->. Qed.

End create_subset.

(** ** Round trip *)

Section round_trip.
Context {V : Type} `{PyLibs V}.

Lemma source_row_nat (var : list (list (list V))) (i n : nat) :
  source_row var (Z.of_nat i) n = var !! i ≫= (λ slab, slab !! n).
Proof. unfold source_row. by rewrite py_index_nat. Qed.

(** C8, amended.  With every time step selected (no explicit sequence,
    stride 1) and a non-empty node index mapping idx within the node
    dimension, the output holds at (time i, node k, level l) the source
    value at (time i, node idx[k], level l) in the declared type; when the
    mapping is the identity 0 .. node-1 the variables of the output are
    those of the source, position for position, after the casts. *)
Theorem write_subset_round_trip (dataset : Dataset V) (idx : list nat) :
  wf_dataset dataset →
  Forall (λ n, n < dim_node dataset)%nat idx →
  idx ≠ [] →
  ∃ selected new,
    select_time_steps (Z.of_nat (dim_time dataset)) None 1 = Ok selected ∧
    write_subset dataset idx selected = Ok new ∧
    time new = time dataset ∧
    level new = to_float32 <$> level dataset ∧
    (∀ i k n, (i < dim_time dataset)%nat → idx !! k = Some n →
       ∃ sal tem,
         salinity new !! i = Some sal ∧ temperature new !! i = Some tem ∧
         sal !! k = fmap (M := list) to_float32
                      <$> (salinity dataset !! i ≫= (λ slab, slab !! n)) ∧
         tem !! k = fmap (M := list) to_float32
                      <$> (temperature dataset !! i ≫= (λ slab, slab !! n))) ∧
    (idx = seq 0 (dim_node dataset) →
       longitude new = longitude dataset ∧
       latitude new = latitude dataset ∧
       total_depth new = to_float32 <$> total_depth dataset ∧
       salinity new = slab_to_float32 <$> salinity dataset ∧
       temperature new = slab_to_float32 <$> temperature dataset).
Proof.
  intros Hwf Hidx Hne.
  set (T := dim_time dataset). set (N := dim_node dataset).
  destruct (write_subset_Ok dataset idx (seqZ 0 (Z.of_nat T)) Hwf Hidx)
    as (new & Hrun & _ & _ & _ & Hlev & Hllon & Hllat & Hldep & Hltim
        & Hlsal & Hltem & Hnode & Htime & Hslab).
  { apply Forall_forall. intros t Ht%elem_of_seqZ. lia. }
  { by left. }
  destruct Hwf as (Hlon & Hlat & Hdepth & Hlevel & Htim & [Hsl Hsal]
                   & [Htl Htem] & _).
  rewrite length_seqZ, Nat2Z.id in Hltim, Hlsal, Hltem.
  assert (Hts : ∀ i, (i < T)%nat →
            seqZ 0 (Z.of_nat T) !! i = Some (Z.of_nat i)).
  { intros i Hi. rewrite lookup_seqZ_lt by lia. f_equal; lia. }
  assert (Hslab' : ∀ i k n, (i < T)%nat → idx !! k = Some n →
    ∃ sal tem,
      salinity new !! i = Some sal ∧ temperature new !! i = Some tem ∧
      length sal = length idx ∧ length tem = length idx ∧
      sal !! k = fmap (M := list) to_float32
                   <$> (salinity dataset !! i ≫= (λ slab, slab !! n)) ∧
      tem !! k = fmap (M := list) to_float32
                   <$> (temperature dataset !! i ≫= (λ slab, slab !! n))).
  { intros i k n Hi Hk.
    destruct (Hslab i _ (Hts i Hi)) as (sal & tem & Hs & Ht & Hls & Hlt & Hrow).
    exists sal, tem. destruct (Hrow k n Hk) as [-> ->].
    by rewrite !source_row_nat. }
  exists (int_array (seqZ 0 (Z.of_nat T))), new.
  split; [apply select_every_time_step|].
  split; [done|]. split; [|split; [done|split]].
  - apply list_eq. intros i. destruct (decide (i < T)%nat) as [Hi|Hi].
    + rewrite (Htime i _ (Hts i Hi)). by rewrite py_index_nat.
    + rewrite !lookup_ge_None_2; [done|lia..].
  - intros i k n Hi Hk.
    destruct (Hslab' i k n Hi Hk) as (sal & tem & ? & ? & _ & _ & ? & ?).
    by exists sal, tem.
  - intros ->. rewrite length_seq in *.
    assert (Hid : ∀ k, (k < N)%nat → seq 0 N !! k = Some k).
    { intros k Hk. by rewrite lookup_seq_lt. }
    assert (Hcols : ∀ (f : V → V) (new_col col : list V),
      length new_col = N → length col = N →
      (∀ k, (k < N)%nat → new_col !! k = f <$> col !! k) →
      new_col = f <$> col).
    { intros f new_col col Hl1 Hl2 Hk. apply list_eq. intros k.
      rewrite list_lookup_fmap. destruct (decide (k < N)%nat) as [Hlt|Hge].
      - by apply Hk.
      - rewrite !lookup_ge_None_2; [done|lia..]. }
    assert (Hvars : ∀ (new_var var : list (list (list V))),
      length new_var = T → length var = T →
      Forall (λ slab, length slab = N ∧
                      Forall (λ row, length row = dim_level dataset) slab)
             var →
      (∀ i k, (i < T)%nat → (k < N)%nat →
         ∃ sal, new_var !! i = Some sal ∧ length sal = N ∧
                sal !! k = fmap (M := list) to_float32
                             <$> (var !! i ≫= (λ slab, slab !! k))) →
      (0 < N)%nat ∨ (∀ i, (i < T)%nat →
                       ∃ sal, new_var !! i = Some sal ∧ length sal = N) →
      new_var = slab_to_float32 <$> var).
    { intros new_var var Hl1 Hl2 Hshape Hrows Hempty. apply list_eq. intros i.
      rewrite list_lookup_fmap. destruct (decide (i < T)%nat) as [Hlt|Hge].
      - destruct (lookup_lt_is_Some_2 var i ltac:(lia)) as [slab Hslabi].
        rewrite Hslabi. simpl.
        rewrite Forall_forall in Hshape.
        destruct (Hshape slab) as [Hlslab _].
        { by eapply list_elem_of_lookup_2. }
        assert (∃ sal, new_var !! i = Some sal ∧ length sal = N)
          as (sal & Hsali & Hlsal').
        { destruct Hempty as [HN|Hall]; [|by apply Hall].
          destruct (Hrows i 0%nat Hlt HN) as (sal & ? & ? & _).
          by exists sal. }
        rewrite Hsali. f_equal. apply list_eq. intros k.
        rewrite slab_to_float32_lookup.
        destruct (decide (k < N)%nat) as [Hk|Hk].
        + destruct (Hrows i k Hlt Hk) as (sal' & Hsal' & _ & Hrow).
          rewrite Hsali in Hsal'. injection Hsal' as <-.
          by rewrite Hrow, Hslabi.
        + rewrite !lookup_ge_None_2; [done|lia..].
      - rewrite !lookup_ge_None_2; [done|lia..]. }
    split; [|split; [|split; [|split]]].
    + rewrite <- (list_fmap_id (longitude dataset)).
      apply Hcols; [done..|]. intros k Hk.
      destruct (Hnode k k (Hid k Hk)) as (-> & _ & _).
      by rewrite option_fmap_id.
    + rewrite <- (list_fmap_id (latitude dataset)).
      apply Hcols; [done..|]. intros k Hk.
      destruct (Hnode k k (Hid k Hk)) as (_ & -> & _).
      by rewrite option_fmap_id.
    + apply Hcols; [done..|]. intros k Hk.
      by destruct (Hnode k k (Hid k Hk)) as (_ & _ & ->).
    + apply Hvars; [done..| |].
      * intros i k Hi Hk.
        destruct (Hslab' i k k Hi (Hid k Hk))
          as (sal & tem & ? & ? & ? & ? & ? & ?). by exists sal.
      * right. intros i Hi.
        destruct (Hslab i _ (Hts i Hi)) as (sal & tem & ? & ? & ? & ? & _).
        by exists sal.
    + apply Hvars; [done..| |].
      * intros i k Hi Hk.
        destruct (Hslab' i k k Hi (Hid k Hk))
          as (sal & tem & ? & ? & ? & ? & ? & ?). by exists tem.
      * right. intros i Hi.
        destruct (Hslab i _ (Hts i Hi)) as (sal & tem & ? & ? & ? & ? & _).
        by exists tem.
Qed.

End round_trip.

(** ** The run on the dataset of two nodes *)

Lemma source_east_first_wf : wf_dataset source_east_first.
Proof.
  repeat split; try reflexivity.
  - repeat constructor.
  - repeat constructor.
  - eexists. reflexivity.
Qed.

Lemma run_east_first :
  create_subset_nc fs_east_first "src.nc" "river.csv" 0 "out.nc" None 1
  = Ok (<["out.nc" := NcFile subset_east_first]> fs_east_first).
Proof. vm_compute. reflexivity. Qed.

(** C8, as the claim states it, fails: the river table lists exactly the
    two grid nodes and every time step is selected, yet the output has the
    nodes in west-east order, so that output node 0 holds the salinity 5
    of source node 1 where the source has 35. *)
Lemma round_trip_reorders_nodes :
  river_east_first !! "Lon" = Some (longitude source_east_first) ∧
  river_east_first !! "Lat" = Some (latitude source_east_first) ∧
  create_subset_nc fs_east_first "src.nc" "river.csv" 0 "out.nc" None 1
  = Ok (<["out.nc" := NcFile subset_east_first]> fs_east_first) ∧
  time subset_east_first = time source_east_first ∧
  longitude subset_east_first ≠ longitude source_east_first ∧
  salinity subset_east_first
  ≠ slab_to_float32 <$> salinity source_east_first ∧
  temperature subset_east_first
  ≠ slab_to_float32 <$> temperature source_east_first.
Proof.
  split; [reflexivity|]. split; [reflexivity|].
  split; [exact run_east_first|]. split; [reflexivity|].
  repeat split; discriminate.
Qed.

Lemma write_subset_spec_witness :
  ∃ new, write_subset source_east_first [1; 0]%nat (int_array [0]) = Ok new ∧
         dim_node new = 2%nat ∧ dim_time new = 1%nat.
Proof.
  destruct (write_subset_spec source_east_first [1; 0]%nat [0])
    as (new & Hrun & Hnode & _ & Htime & _).
  - exact source_east_first_wf.
  - repeat (apply Forall_cons_2; [simpl; lia|]). apply Forall_nil_2.
  - repeat (apply Forall_cons_2; [simpl; lia|]). apply Forall_nil_2.
  - discriminate.
  - by exists new.
Defined.

(** C1, as the claim states it, fails for an empty node index mapping:
    with a time step selected, the read of the salinity slab with an empty
    list of node indices raises IndexError and no dataset is returned,
    although the source is well-formed and the time index is in range. *)
Lemma write_subset_empty_mapping :
  wf_dataset source_east_first ∧
  in_time_range (dim_time source_east_first) 0 ∧
  write_subset source_east_first [] (int_array [0]) = Err IndexError.
Proof.
  split; [exact source_east_first_wf|]. split; [|reflexivity].
  unfold in_time_range. simpl. lia.
Qed.

Lemma write_subset_round_trip_witness :
  ∃ selected new,
    write_subset source_east_first [0; 1]%nat selected = Ok new ∧
    salinity new = salinity source_east_first.
Proof.
  destruct (write_subset_round_trip source_east_first [0; 1]%nat)
    as (selected & new & _ & Hrun & _ & _ & _ & Hid).
  - exact source_east_first_wf.
  - repeat (apply Forall_cons_2; [simpl; lia|]). apply Forall_nil_2.
  - discriminate.
  - exists selected, new. split; [exact Hrun|].
    destruct (Hid eq_refl) as (_ & _ & _ & -> & _). reflexivity.
Defined.

(** ** Rows with equal keys *)

Lemma Z_sort_contract_ties_reversed : @SortContract Z Z_libs_ties_reversed.
Proof.
  split; simpl; intros keys; unfold Z_argsort_ties_reversed.
  - rewrite merge_sort_Permutation, reverse_Permutation.
    by rewrite snd_zip by (rewrite length_seq; lia).
  - rewrite omap_lookup_keys.
    + apply (Sorted_fmap fst key_le); [|apply Sorted_merge_sort, _].
      intros x y Hxy. unfold fle, key_le in *. simpl.
      apply Z.ltb_ge. done.
    + rewrite merge_sort_Permutation, reverse_Permutation.
      apply (zip_seq_keys keys 0 []). done.
Qed.

(** The contract of [sort_values] leaves the order of rows with equal keys
    open: of two sorts that meet it, one returns the two nodes of the same
    meridian in their input order and the other in the reverse order.
    Which of them pandas' default sorting kind behaves like is decided in
    pandas and numpy. *)
Lemma tie_order_follows_sort :
  (nxyd ← sort_river_nodes (H := Z_libs)
            (<["river.csv" := CsvFile river_same_lon]> ∅) "river.csv" 0;
   column nxyd "Node") = Ok [1; 2] ∧
  (nxyd ← sort_river_nodes (H := Z_libs_ties_reversed)
            (<["river.csv" := CsvFile river_same_lon]> ∅) "river.csv" 0;
   column nxyd "Node") = Ok [2; 1].
Proof. split; reflexivity. Qed.

(** * Further properties of the code *)

(** ** The table that [sort_river_nodes] returns *)

Lemma omap_lookup_seq {A} (l pre : list A) :
  omap (λ i, (pre ++ l) !! i) (seq (length pre) (length l)) = l.
Proof.
  revert pre. induction l as [|x l IH]; intros pre; simpl; [done|].
  rewrite lookup_app_r, Nat.sub_diag by lia. simpl. f_equal.
  specialize (IH (pre ++ [x])). rewrite <- app_assoc, length_app in IH.
  simpl in IH. by rewrite Nat.add_1_r in IH.
Qed.

Lemma omap_lookup_zip {A B} (a : list A) (b : list B) (p : list nat) :
  length a = length b →
  omap (λ i, zip a b !! i) p
  = zip (omap (λ i, a !! i) p) (omap (λ i, b !! i) p).
Proof.
  intros Hlen. induction p as [|i p IH]; csimpl; [done|].
  rewrite lookup_zip_with.
  destruct (decide (i < length a)%nat) as [Hi|Hi].
  - destruct (lookup_lt_is_Some_2 a i Hi) as [x ->].
    destruct (lookup_lt_is_Some_2 b i ltac:(lia)) as [y ->].
    csimpl. by rewrite IH.
  - rewrite (lookup_ge_None_2 a i), (lookup_ge_None_2 b i) by lia.
    csimpl. apply IH.
Qed.

Lemma omap_lookup_Permutation {A} (l : list A) (p : list nat) :
  p ≡ₚ seq 0 (length l) → omap (λ i, l !! i) p ≡ₚ l.
Proof.
  intros Hp. rewrite Hp. pose proof (omap_lookup_seq l []) as Hl.
  simpl in Hl. by rewrite Hl.
Qed.

Section river_table.
Context {V : Type} `{PyLibs V}.

(** X1. For a river table that was parsed and whose columns have the
    same number of rows, [sort_river_nodes] returns a table exactly when
    the axis selector is 0 or 1 and the columns Node, Lat and Lon are all
    there. *)
Theorem sort_river_nodes_succeeds_iff (fs : FS V) (path : string)
    (df : DataFrame V) (n : nat) (axis : Z) :
  fs !! path = Some (CsvFile df) →
  wf_frame df n →
  is_Ok (sort_river_nodes fs path axis) ↔
  (axis = 0 ∨ axis = 1) ∧
  is_Some (df !! "Node") ∧ is_Some (df !! "Lat") ∧ is_Some (df !! "Lon").
Proof.
  intros Hfs Hwf. split.
  - intros [nxyd Hrun]. unfold sort_river_nodes, read_csv in Hrun.
    rewrite Hfs in Hrun. simpl in Hrun.
    apply bind_Ok in Hrun as (sorted & Hsort & Hrun).
    assert (∃ p, sorted = take_rows p <$> df ∧ (axis = 0 ∨ axis = 1))
      as (p & -> & Haxis).
    { unfold sort_values in Hsort.
      destruct (decide (axis = 0)); [|destruct (decide (axis = 1))];
        [| |done].
      - apply bind_Ok in Hsort as (keys & _ & [= <-]). eauto.
      - apply bind_Ok in Hsort as (keys & _ & [= <-]). eauto. }
    split; [done|].
    apply bind_Ok in Hrun as (x & Hx & Hrun).
    apply bind_Ok in Hrun as (y & Hy & Hrun).
    apply bind_Ok in Hrun as (nn & Hn & _).
    unfold column in Hx, Hy, Hn. rewrite lookup_fmap in Hx, Hy, Hn.
    destruct (df !! "Node"), (df !! "Lat"), (df !! "Lon"); try done.
    all: by repeat split.
  - intros (Haxis & [node0 Hnode] & [lat0 Hlat] & [lon0 Hlon]).
    assert (∃ by_ keys, (axis = 0 ∧ by_ = "Lon" ∨ axis = 1 ∧ by_ = "Lat") ∧
                        df !! by_ = Some keys) as (by_ & keys & Hby & Hkeys).
    { destruct Haxis as [->| ->]; [exists "Lon", lon0|exists "Lat", lat0];
        split; auto. }
    destruct (sort_river_nodes_Ok fs path df n axis by_ node0 lat0 lon0 keys)
      as (d1 & Hrun & _); try done.
    by eexists.
Qed.

(** X2. The table that [sort_river_nodes] returns has the columns Node,
    Lat, Lon and Distance and no other: further columns of the input are
    not carried over. *)
Theorem sort_river_nodes_columns (fs : FS V) (path : string) (axis : Z)
    (nxyd : DataFrame V) :
  sort_river_nodes fs path axis = Ok nxyd →
  dom nxyd = ({["Node"; "Lat"; "Lon"; "Distance"]} : gset string).
Proof.
  unfold sort_river_nodes.
  intros (r0 & _ & (r1 & _ & (x & _ & (y & _ & (nn & _ & (d1 & _ & [= <-]
    )%bind_Ok)%bind_Ok)%bind_Ok)%bind_Ok)%bind_Ok)%bind_Ok.
  rewrite !dom_insert_L, dom_empty_L. set_solver.
Qed.

End river_table.

Section river_rows.
Context {V : Type} `{SortContract V}.

(** X3. For a rectangular table with the three columns and axis 0 or 1,
    the rows (Node, Lat, Lon) of the result are the rows of the input in
    another order: no node is lost, repeated or given the coordinates of
    another. *)
Theorem sort_river_nodes_rows (fs : FS V) (path : string)
    (df : DataFrame V) (n : nat) (axis : Z) (node0 lat0 lon0 : list V) :
  fs !! path = Some (CsvFile df) →
  wf_frame df n →
  df !! "Node" = Some node0 →
  df !! "Lat" = Some lat0 →
  df !! "Lon" = Some lon0 →
  axis = 0 ∨ axis = 1 →
  ∃ nxyd node lat lon,
    sort_river_nodes fs path axis = Ok nxyd ∧
    nxyd !! "Node" = Some node ∧
    nxyd !! "Lat" = Some lat ∧
    nxyd !! "Lon" = Some lon ∧
    length node = n ∧
    zip node (zip lat lon) ≡ₚ zip node0 (zip lat0 lon0).
Proof.
  intros Hfs Hwf Hnode Hlat Hlon Haxis.
  assert (∃ by_ keys, (axis = 0 ∧ by_ = "Lon" ∨ axis = 1 ∧ by_ = "Lat") ∧
                      df !! by_ = Some keys) as (by_ & keys & Hby & Hkeys).
  { destruct Haxis as [->| ->]; [exists "Lon", lon0|exists "Lat", lat0];
      split; auto. }
  destruct (sort_river_nodes_Ok fs path df n axis by_ node0 lat0 lon0 keys)
    as (d1 & Hrun & _); try done.
  set (p := argsort keys) in *.
  assert (Hp : p ≡ₚ seq 0 n).
  { unfold p. rewrite argsort_perm. by rewrite (Hwf _ _ Hkeys). }
  pose proof (Hwf _ _ Hnode) as Hln. pose proof (Hwf _ _ Hlat) as Hla.
  pose proof (Hwf _ _ Hlon) as Hlo.
  eexists _, (take_rows p node0), (take_rows p lat0), (take_rows p lon0).
  split; [exact Hrun|].
  do 3 (split; [by simplify_map_eq|]).
  split.
  - unfold take_rows.
    rewrite (Permutation_length (omap_lookup_Permutation node0 p
               ltac:(by rewrite Hln))). done.
  - unfold take_rows.
    rewrite <- (omap_lookup_zip lat0 lon0) by lia.
    rewrite <- omap_lookup_zip by (rewrite length_zip; lia).
    apply omap_lookup_Permutation.
    rewrite !length_zip. by replace (length node0 `min` _)%nat with n by lia.
Qed.

End river_rows.

Lemma sort_river_nodes_succeeds_iff_witness :
  is_Ok (sort_river_nodes fs_east_first "river.csv" 1).
Proof.
  apply (sort_river_nodes_succeeds_iff fs_east_first "river.csv"
           river_east_first 2 1); [reflexivity|exact river_east_first_wf|].
  split; [by right|]. repeat split; eexists; reflexivity.
Defined.

Lemma sort_river_nodes_columns_witness :
  ∃ nxyd, sort_river_nodes fs_east_first "river.csv" 0 = Ok nxyd ∧
          dom nxyd = ({["Node"; "Lat"; "Lon"; "Distance"]} : gset string).
Proof.
  eexists. split; [vm_compute; reflexivity|].
  eapply (sort_river_nodes_columns fs_east_first "river.csv" 0).
  vm_compute. reflexivity.
Defined.

Lemma sort_river_nodes_rows_witness :
  ∃ nxyd node,
    sort_river_nodes fs_east_first "river.csv" 0 = Ok nxyd ∧
    nxyd !! "Node" = Some node ∧ length node = 2%nat.
Proof.
  destruct (sort_river_nodes_rows fs_east_first "river.csv"
              river_east_first 2 0 [1; 2] [0; 0] [2; 1])
    as (nxyd & node & lat & lon & Hrun & Hnode & _ & _ & Hlen & _).
  - reflexivity.
  - exact river_east_first_wf.
  - reflexivity.
  - reflexivity.
  - reflexivity.
  - by left.
  - by exists nxyd, node.
Defined.

(** ** The node indices that the resolver returns *)

Lemma argmin_loop_bound {V} (lt : V → V → bool) (isnan : V → bool)
    (ip : list V) (mp : V) (min_ind i : nat) :
  (min_ind < i)%nat →
  (argmin_loop lt isnan mp min_ind i ip < i + length ip)%nat.
Proof.
  revert mp min_ind i. induction ip as [|x ip IH]; intros mp min_ind i Hi.
  - simpl. lia.
  - simpl. destruct (isnan x); [lia|]. destruct (lt x mp).
    + specialize (IH x i (S i) ltac:(lia)). lia.
    + specialize (IH mp min_ind (S i) ltac:(lia)). lia.
Qed.

Lemma np_argmin_bound {V} (lt : V → V → bool) (isnan : V → bool)
    (a : list V) (flat : nat) :
  np_argmin lt isnan a = Ok flat → (flat < length a)%nat.
Proof.
  destruct a as [|x ip]; [done|]. simpl.
  destruct (isnan x); intros [= <-]; [lia|].
  pose proof (argmin_loop_bound lt isnan ip x 0 1 ltac:(lia)). lia.
Qed.

Lemma shape_size_cons (d : nat) (rest : list nat) :
  shape_size (d :: rest) = (d * shape_size rest)%nat.
Proof. done. Qed.

Section resolver_bounds.
Context {V : Type} `{PyLibs V}.

Lemma resolve_index_bound (longitude latitude : ndarray V) (d : nat)
    (rest : list nat) (q : V * V) :
  shape longitude = d :: rest →
  length (data longitude) = shape_size (d :: rest) →
  length (data latitude) = shape_size (d :: rest) →
  (0 < shape_size (d :: rest))%nat →
  ∃ i, resolve_index longitude latitude q = Ok i ∧ (i < d)%nat.
Proof.
  intros Hshape Hlon Hlat Hsize. unfold resolve_index.
  set (a := data (distances longitude latitude q.1 q.2)).
  assert (Hlen : length a = shape_size (d :: rest)).
  { unfold a, distances. cbn [data].
    rewrite length_zip_with, Hlon, Hlat. lia. }
  destruct a as [|x ip] eqn:Ha.
  { change (length (@nil V)) with 0%nat in Hlen. lia. }
  rewrite <- Ha in *.
  destruct (np_argmin flt fisnan a) as [flat|e] eqn:Hflat.
  2: { rewrite Ha in Hflat. simpl in Hflat. by destruct (fisnan x). }
  pose proof (np_argmin_bound _ _ _ _ Hflat) as Hbound.
  simpl. unfold np_unravel_index. cbn [shape distances]. rewrite Hshape.
  rewrite decide_True by lia. simpl.
  eexists; split; [done|].
  rewrite shape_size_cons in Hlen, Hsize.
  apply Nat.Div0.div_lt_upper_bound. lia.
Qed.

(** X4. On a non-empty grid of shape d x rest, without any assumption on
    the comparison of distances, every query gets an index and every
    index is below d, the length of the first axis: indexing a node
    variable with the mapping never leaves the node dimension. *)
Theorem resolve_indices_in_bounds (longitude latitude : ndarray V)
    (d : nat) (rest : list nat) (queries : list (V * V)) :
  shape longitude = d :: rest →
  length (data longitude) = shape_size (d :: rest) →
  length (data latitude) = shape_size (d :: rest) →
  (0 < shape_size (d :: rest))%nat →
  ∃ idx, resolve_indices longitude latitude queries = Ok idx ∧
         length idx = length queries ∧
         Forall (λ i, i < d)%nat idx.
Proof.
  intros Hshape Hlon Hlat Hsize.
  destruct (mapM_is_Ok (resolve_index longitude latitude) queries)
    as [idx Hidx].
  { apply Forall_forall. intros q _.
    destruct (resolve_index_bound longitude latitude d rest q)
      as (i & Hi & _); try done. by eexists. }
  exists idx. split; [done|]. split; [by eapply mapM_Ok_length|].
  apply Forall_lookup. intros k i Hk.
  assert (∃ q, queries !! k = Some q) as [q Hq].
  { apply lookup_lt_is_Some_2. rewrite <- (mapM_Ok_length _ _ _ Hidx).
    by eapply lookup_lt_Some. }
  destruct (mapM_Ok_lookup _ _ _ _ _ Hidx Hq) as (i' & Hi' & Hrun).
  destruct (resolve_index_bound longitude latitude d rest q)
    as (j & Hj & Hlt); try done.
  congruence.
Qed.

(** X5. On a grid without cells there is no match: with at least one
    query the resolver raises ValueError (from the argmin of an empty
    array), and with no query it returns the empty mapping. *)
Theorem resolve_indices_empty_grid (longitude latitude : ndarray V)
    (queries : list (V * V)) :
  data longitude = [] → data latitude = [] →
  resolve_indices longitude latitude queries
  = match queries with
    | [] => Ok []
    | _ :: _ => Err ValueError
    end.
Proof.
  intros Hlon Hlat. destruct queries as [|q queries]; [done|].
  unfold resolve_indices. simpl. unfold resolve_index, distances.
  cbn [data]. by rewrite Hlon, Hlat.
Qed.

End resolver_bounds.

Lemma resolve_indices_in_bounds_witness :
  ∃ idx,
    resolve_indices grid2x2_longitude grid2x2_latitude [(3, 0); (0, 4)]
    = Ok idx ∧ Forall (λ i, i < 2)%nat idx.
Proof.
  destruct (resolve_indices_in_bounds grid2x2_longitude grid2x2_latitude
              2 [2%nat] [(3, 0); (0, 4)])
    as (idx & Hrun & _ & Hbound).
  - reflexivity.
  - reflexivity.
  - reflexivity.
  - simpl. lia.
  - by exists idx.
Defined.

Lemma resolve_indices_empty_grid_witness :
  resolve_indices {| shape := [0%nat]; data := [] |}
                  {| shape := [0%nat]; data := [] |} [(1, 0)]
  = Err ValueError.
Proof.
  apply (resolve_indices_empty_grid {| shape := [0%nat]; data := [] |}
           {| shape := [0%nat]; data := [] |} [(1, 0)]); reflexivity.
Defined.

(** ** What the writer accepts and what it returns *)

Lemma np_getitem_out_of_range {A} (a : list A) (i : Z) :
  ¬ in_time_range (length a) i → np_getitem a i = Err IndexError.
Proof.
  unfold in_time_range, np_getitem. intros Hi.
  destruct (decide (0 ≤ i < Z.of_nat (length a))); [lia|].
  destruct (decide (- Z.of_nat (length a) ≤ i < 0)); [lia|]. done.
Qed.

Lemma np_take_Ok_inv {A} (a : list A) (idx : list Z) (out : list A) :
  np_take a idx = Ok out → Forall (in_time_range (length a)) idx.
Proof.
  unfold np_take. revert out.
  induction idx as [|i idx IH]; intros out; simpl; [by constructor|].
  intros (x & Hx & (out' & Hout & _)%bind_Ok)%bind_Ok.
  constructor; [|by eapply IH].
  destruct (decide (in_time_range (length a) i)) as [|Hi]; [done|].
  by rewrite np_getitem_out_of_range in Hx.
Qed.

Lemma np_take_Err {A} (a : list A) (idx : list Z) :
  ¬ Forall (in_time_range (length a)) idx → np_take a idx = Err IndexError.
Proof.
  unfold np_take. induction idx as [|i idx IH]; simpl; intros Hidx.
  - destruct Hidx. constructor.
  - destruct (decide (in_time_range (length a) i)) as [Hi|Hi].
    + destruct (np_getitem_spec a i Hi) as (x & -> & _). simpl.
      rewrite IH; [done|]. intros Hrest. apply Hidx. by constructor.
    + by rewrite np_getitem_out_of_range.
Qed.

Lemma Forall_of_nat_in_range (n : nat) (idx : list nat) :
  Forall (in_time_range n) (Z.of_nat <$> idx) ↔ Forall (λ i, i < n)%nat idx.
Proof.
  rewrite Forall_fmap. apply Forall_proper; [|done].
  intros i. unfold in_time_range, compose. simpl. lia.
Qed.

Section writer_outcome.
Context {V : Type} `{PyLibs V}.

Lemma write_subset_Ok_inv (dataset : Dataset V) (idx : list nat)
    (time_steps : IndexArray) (new : Dataset V) :
  wf_dataset dataset →
  write_subset dataset idx time_steps = Ok new →
  Forall (λ n, n < dim_node dataset)%nat idx ∧
  integral time_steps = true ∧
  Forall (in_time_range (dim_time dataset)) (elems time_steps).
Proof.
  intros (Hlon & _ & _ & _ & Htime & _) Hrun. unfold write_subset in Hrun.
  apply bind_Ok in Hrun as (u & _ & Hrun).
  apply bind_Ok in Hrun as (nlon & Hnlon & Hrun).
  apply bind_Ok in Hrun as (nlat & _ & Hrun).
  apply bind_Ok in Hrun as (ndep & _ & Hrun).
  apply bind_Ok in Hrun as (ntim & Hntim & _).
  apply np_take_Ok_inv in Hnlon. rewrite Hlon in Hnlon.
  apply Forall_of_nat_in_range in Hnlon. split; [done|].
  unfold np_take_array in Hntim.
  destruct (integral time_steps); [|done]. split; [done|].
  apply np_take_Ok_inv in Hntim. by rewrite Htime in Hntim.
Qed.

Lemma write_subset_Ok_nonempty (dataset : Dataset V) (idx : list nat)
    (time_steps : IndexArray) (new : Dataset V) :
  write_subset dataset idx time_steps = Ok new →
  idx ≠ [] ∨ elems time_steps = [].
Proof.
  unfold write_subset. intros Hrun.
  apply bind_Ok in Hrun as (u & _ & Hrun).
  apply bind_Ok in Hrun as (nlon & _ & Hrun).
  apply bind_Ok in Hrun as (nlat & _ & Hrun).
  apply bind_Ok in Hrun as (ndep & _ & Hrun).
  apply bind_Ok in Hrun as (ntim & _ & Hrun).
  apply bind_Ok in Hrun as ([ns nt] & Hcopy & _).
  destruct idx as [|n idx]; [|by left]. right.
  destruct (elems time_steps) as [|t ts]; [done|]. by simpl in Hcopy.
Qed.

Lemma write_subset_units_inv (dataset : Dataset V) (idx : list nat)
    (time_steps : IndexArray) (new : Dataset V) :
  write_subset dataset idx time_steps = Ok new →
  ∃ time_units,
    units dataset !! "time" = Some time_units ∧
    units new
    = <["time" := time_units]>
        (<["latitude" := "degrees_north"]>
           (<["longitude" := "degrees_east"]>
              (<["level" := "meters"]>
                 (<["total_depth" := "meters"]> ∅)))).
Proof.
  unfold write_subset. intros Hrun.
  apply bind_Ok in Hrun as (u & Hu & Hrun).
  apply bind_Ok in Hrun as (nlon & _ & Hrun).
  apply bind_Ok in Hrun as (nlat & _ & Hrun).
  apply bind_Ok in Hrun as (ndep & _ & Hrun).
  apply bind_Ok in Hrun as (ntim & _ & Hrun).
  apply bind_Ok in Hrun as ([ns nt] & _ & [= <-]).
  exists u. split; [|done]. revert Hu.
  destruct (units dataset !! "time"); simpl; [by intros [= ->]|done].
Qed.

(** X6. For a source whose variables have the shapes of its dimensions,
    at least one node index and at least one time index, [write_subset]
    returns a dataset exactly when every node index is inside the node
    dimension, the time indices form an integral array and every time
    index is inside the time dimension (counted from the end when
    negative); in every other case it raises IndexError. *)
Theorem write_subset_succeeds_iff (dataset : Dataset V) (idx : list nat)
    (time_steps : IndexArray) :
  wf_dataset dataset →
  idx ≠ [] →
  elems time_steps ≠ [] →
  (is_Ok (write_subset dataset idx time_steps) ↔
   Forall (λ n, n < dim_node dataset)%nat idx ∧
   integral time_steps = true ∧
   Forall (in_time_range (dim_time dataset)) (elems time_steps)) ∧
  (¬ is_Ok (write_subset dataset idx time_steps) →
   write_subset dataset idx time_steps = Err IndexError).
Proof.
  intros Hwf Hne _.
  assert (Hok : Forall (λ n, n < dim_node dataset)%nat idx ∧
                integral time_steps = true ∧
                Forall (in_time_range (dim_time dataset)) (elems time_steps) →
                is_Ok (write_subset dataset idx time_steps)).
  { intros (Hidx & Hint & Hts). destruct time_steps as [ts int].
    simpl in *. subst int.
    destruct (write_subset_Ok dataset idx ts Hwf Hidx Hts (or_introl Hne))
      as (new & Hrun & _).
    by exists new. }
  split; [split; [|done]|].
  - intros [new Hrun]. by eapply write_subset_Ok_inv.
  - intros Hfail.
    destruct Hwf as (Hlon & Hlat & Hdepth & Hlevel & Htime & Hsal & Htem
                     & [u Hu]).
    unfold write_subset. rewrite Hu. simpl.
    destruct (decide (Forall (λ n, n < dim_node dataset)%nat idx))
      as [Hidx|Hidx].
    + destruct (np_take_nat_spec (longitude dataset) idx)
        as (nlon & -> & _); [by rewrite Hlon|].
      destruct (np_take_nat_spec (latitude dataset) idx)
        as (nlat & -> & _); [by rewrite Hlat|].
      destruct (np_take_nat_spec (total_depth dataset) idx)
        as (ndep & -> & _); [by rewrite Hdepth|].
      simpl. unfold np_take_array.
      destruct (integral time_steps) eqn:Hint; [|done].
      rewrite np_take_Err; [done|]. rewrite Htime. intros Hts.
      apply Hfail, Hok. by split_and!.
    + rewrite (np_take_Err (longitude dataset)); [reflexivity|].
      rewrite Hlon. by rewrite Forall_of_nat_in_range.
Qed.

Lemma source_row_length (var : list (list (list V)))
    (ntime nnode nlevel : nat) (t : Z) (n : nat) (row : list V) :
  wf_variable ntime nnode nlevel var →
  source_row var t n = Some row → length row = nlevel.
Proof.
  intros [_ Hslabs]. unfold source_row. intros Hrow.
  destruct (var !! py_index (length var) t) as [slab|] eqn:Hslab; [|done].
  simpl in Hrow. rewrite Forall_forall in Hslabs.
  destruct (Hslabs slab) as [_ Hrows].
  { by eapply list_elem_of_lookup_2. }
  rewrite Forall_forall in Hrows. apply Hrows.
  by eapply list_elem_of_lookup_2.
Qed.

(** X7. The dataset that [write_subset] returns for a well-formed source
    is well-formed itself: each variable has the shape of the dimensions
    declared for it, every row of salinity and temperature has the
    source's number of levels, and the time variable carries units.  A
    subset can therefore be the source of a further run. *)
Theorem write_subset_wf (dataset : Dataset V) (idx : list nat)
    (time_steps : IndexArray) (new : Dataset V) :
  wf_dataset dataset →
  write_subset dataset idx time_steps = Ok new →
  wf_dataset new.
Proof.
  intros Hwf Hrun.
  destruct (write_subset_Ok_inv _ _ _ _ Hwf Hrun) as (Hidx & Hint & Hts).
  destruct (write_subset_units_inv _ _ _ _ Hrun) as (u & _ & Hunits).
  pose proof (write_subset_Ok_nonempty _ _ _ _ Hrun) as Hsome.
  destruct time_steps as [ts int]. simpl in *. subst int.
  destruct (write_subset_Ok dataset idx ts Hwf Hidx Hts Hsome)
    as (new' & Hrun' & Hn & Hl & Ht & Hlev & Hllon & Hllat & Hldep & Hltim
        & Hlsal & Hltem & _ & _ & Hslab).
  fold (int_array ts) in Hrun. rewrite Hrun in Hrun'. injection Hrun' as <-.
  destruct Hwf as (_ & _ & _ & Hlevel & _ & Hsal & Htem & _).
  assert (Hvar : ∀ (pick : list (list V) * list (list V) → list (list V))
                   (new_var var : list (list (list V))),
    wf_variable (dim_time dataset) (dim_node dataset) (dim_level dataset)
      var →
    length new_var = length ts →
    (∀ i t, ts !! i = Some t →
       ∃ slab, new_var !! i = Some slab ∧ length slab = length idx ∧
               ∀ k n, idx !! k = Some n →
                 slab !! k = fmap (M := list) to_float32
                               <$> source_row var t n) →
    wf_variable (dim_time new) (dim_node new) (dim_level new) new_var).
  { intros _ new_var var Hwfv Hlen Hslabs. split; [by rewrite Ht|].
    apply Forall_lookup. intros i slab Hi.
    destruct (lookup_lt_is_Some_2 ts i) as [t Hti].
    { rewrite <- Hlen. by eapply lookup_lt_Some. }
    destruct (Hslabs i t Hti) as (slab' & Hs & Hls & Hrows).
    rewrite Hi in Hs. injection Hs as <-. split; [by rewrite Hn|].
    apply Forall_lookup. intros k row Hk.
    destruct (lookup_lt_is_Some_2 idx k) as [n Hkn].
    { rewrite <- Hls. by eapply lookup_lt_Some. }
    rewrite (Hrows k n Hkn) in Hk.
    destruct (source_row var t n) as [row0|] eqn:Hrow0; [|done].
    injection Hk as <-. rewrite length_fmap, Hl.
    by eapply source_row_length. }
  repeat split.
  - by rewrite Hn.
  - by rewrite Hn.
  - by rewrite Hn.
  - by rewrite Hlev, length_fmap, Hl.
  - by rewrite Ht.
  - by rewrite Ht.
  - apply (Hvar fst _ (salinity dataset)); [done..|]. intros i t Hi.
    destruct (Hslab i t Hi) as (sal & tem & ? & ? & ? & ? & Hrows).
    exists sal. repeat split; [done..|]. intros k n Hk.
    by destruct (Hrows k n Hk).
  - by rewrite Ht.
  - apply (Hvar snd _ (temperature dataset)); [done..|]. intros i t Hi.
    destruct (Hslab i t Hi) as (sal & tem & ? & ? & ? & ? & Hrows).
    exists tem. repeat split; [done..|]. intros k n Hk.
    by destruct (Hrows k n Hk).
  - rewrite Hunits. exists u. by rewrite lookup_insert_eq.
Qed.

(** X8. In the dataset that [write_subset] returns, the units of time are
    those of the source's time variable, the units of latitude,
    longitude, level and total_depth are the fixed strings of the code
    whatever the source says, and salinity and temperature have none. *)
Theorem write_subset_units (dataset : Dataset V) (idx : list nat)
    (time_steps : IndexArray) (new : Dataset V) :
  write_subset dataset idx time_steps = Ok new →
  units new !! "time" = units dataset !! "time" ∧
  units new !! "latitude" = Some "degrees_north" ∧
  units new !! "longitude" = Some "degrees_east" ∧
  units new !! "level" = Some "meters" ∧
  units new !! "total_depth" = Some "meters" ∧
  units new !! "salinity" = None ∧
  units new !! "temperature" = None.
Proof.
  intros (u & Hu & ->)%write_subset_units_inv. rewrite Hu.
  repeat split; by simplify_map_eq.
Qed.

End writer_outcome.

Lemma write_east_first :
  write_subset source_east_first [1; 0]%nat (int_array [0])
  = Ok subset_east_first.
Proof. vm_compute. reflexivity. Qed.

Lemma write_subset_succeeds_iff_witness :
  is_Ok (write_subset source_east_first [1; 0]%nat (int_array [0])).
Proof.
  destruct (write_subset_succeeds_iff source_east_first [1; 0]%nat
              (int_array [0]) source_east_first_wf) as [[_ Hok] _];
    [done|done|].
  apply Hok. split; [|split]; [|reflexivity|].
  - repeat (apply Forall_cons_2; [simpl; lia|]). apply Forall_nil_2.
  - repeat (apply Forall_cons_2; [unfold in_time_range; simpl; lia|]).
    apply Forall_nil_2.
Defined.

Lemma write_subset_wf_witness : wf_dataset subset_east_first.
Proof.
  apply (write_subset_wf source_east_first [1; 0]%nat (int_array [0])).
  - exact source_east_first_wf.
  - exact write_east_first.
Defined.

Lemma write_subset_units_witness :
  units subset_east_first !! "time" = units source_east_first !! "time" ∧
  units subset_east_first !! "salinity" = None.
Proof.
  destruct (write_subset_units source_east_first [1; 0]%nat (int_array [0])
              subset_east_first write_east_first)
    as (Htime & _ & _ & _ & _ & Hsal & _).
  by split.
Defined.

(** ** How many time steps are selected *)

Lemma stride_skip_one {A} (l : list A) : stride_skip 1 0 l = l.
Proof. induction l as [|x l IH]; simpl; [done|]. by rewrite IH. Qed.

Lemma stride_skip_length {A} (k skip : nat) (l : list A) :
  (skip < k)%nat →
  length (stride_skip k skip l) = ((length l + k - 1 - skip) `div` k)%nat.
Proof.
  revert skip. induction l as [|x l IH]; intros skip Hskip; simpl.
  - symmetry. apply Nat.div_small. lia.
  - destruct skip as [|s]; simpl.
    + rewrite IH by lia.
      replace (length l + k - 0 - 0)%nat with (length l + 1 * k)%nat by lia.
      rewrite Nat.div_add by lia.
      replace (length l + k - 1 - pred k)%nat with (length l) by lia. lia.
    + rewrite IH by lia. f_equal. lia.
Qed.

Lemma ceil_div_pos (total stride : Z) :
  0 ≤ total → 0 < stride →
  Z.max 0 (- ((0 - total) `div` stride)) = (total + stride - 1) `div` stride.
Proof.
  intros Htot Hs.
  pose proof (Z.div_mod (0 - total) stride ltac:(lia)) as Hdm.
  pose proof (Z.mod_pos_bound (0 - total) stride Hs) as Hb.
  assert (- ((0 - total) `div` stride) = (total + stride - 1) `div` stride)
    as Heq.
  { apply (Z.div_unique _ _ _ (stride - 1 - (0 - total) `mod` stride));
      [lia|nia]. }
  rewrite <- Heq. apply Z.max_r. nia.
Qed.

Lemma np_arange_in_range (total stride : Z) (l : list Z) :
  0 < stride → np_arange 0 total stride = Ok l →
  Forall (λ t, 0 ≤ t < total) l.
Proof.
  intros Hs Hl. apply Forall_lookup. intros j t Hj.
  destruct (np_arange_lookup total stride j Hs) as (l' & Hl' & Hlook).
  rewrite Hl in Hl'. injection Hl' as <-. rewrite Hj in Hlook.
  case_decide; [|done]. injection Hlook as ->. lia.
Qed.

(** X9. With the default stride 1 nothing is left out: without an
    explicit sequence the selection is 0, 1, ..., total-1, and an explicit
    sequence is selected as it is, in its order and with its repetitions. *)
Theorem select_time_steps_stride_one (total : nat) (explicit : list Z) :
  select_time_steps (Z.of_nat total) None 1
  = Ok (int_array (seqZ 0 (Z.of_nat total))) ∧
  select_time_steps (Z.of_nat total) (Some explicit) 1
  = Ok (np_array explicit).
Proof.
  split; [apply select_every_time_step|].
  unfold select_time_steps, slice_array, slice_step. simpl.
  by rewrite stride_skip_one.
Qed.

(** X10. For a non-negative total and a positive stride, the number of
    selected time steps is total divided by stride, rounded up, when no
    explicit sequence is given, and the length of the explicit sequence
    divided by stride, rounded up, when one is; without an explicit
    sequence every selected index is a time index of the source. *)
Theorem select_time_steps_count (total stride : Z) :
  0 ≤ total → 0 < stride →
  (∃ a, select_time_steps total None stride = Ok a ∧
        Z.of_nat (length (elems a)) = (total + stride - 1) `div` stride ∧
        Forall (λ t, 0 ≤ t < total) (elems a)) ∧
  (∀ explicit : list Z,
     ∃ a, select_time_steps total (Some explicit) stride = Ok a ∧
          length (elems a)
          = ((length explicit + Z.to_nat stride - 1)
               `div` Z.to_nat stride)%nat).
Proof.
  intros Htot Hs. split.
  - destruct (np_arange 0 total stride) as [l|e] eqn:Hl.
    2: { unfold np_arange in Hl. by rewrite decide_False in Hl by lia. }
    exists {| elems := l; integral := fits_int64 stride |}.
    unfold select_time_steps. rewrite Hl.
    split; [done|]. split; [|by eapply np_arange_in_range].
    unfold np_arange in Hl. rewrite decide_False in Hl by lia.
    injection Hl as <-. simpl.
    rewrite length_fmap, length_seqZ, ceil_div_pos by done.
    apply Z2Nat.id. apply Z.div_pos; lia.
  - intros explicit. unfold select_time_steps, slice_array, slice_step.
    simpl. rewrite decide_False by lia. rewrite decide_True by lia.
    eexists; split; [done|]. simpl.
    rewrite stride_skip_length by lia. f_equal. lia.
Qed.

Lemma select_time_steps_count_witness :
  ∃ a, select_time_steps 10 None 3 = Ok a ∧
       Z.of_nat (length (elems a)) = 4.
Proof.
  destruct (select_time_steps_count 10 3) as [(a & Hrun & Hlen & _) _];
    [lia|lia|].
  exists a. split; [exact Hrun|]. rewrite Hlen. reflexivity.
Defined.

(** ** A whole run on well-formed inputs *)

Lemma mapM_Ok_Forall {A B} (f : A → Result B) (P : B → Prop) (l : list A)
    (k : list B) :
  (∀ x y, f x = Ok y → P y) → mapM f l = Ok k → Forall P k.
Proof.
  intros Hf. revert k. induction l as [|x l IH]; intros k; simpl.
  - intros [= <-]. constructor.
  - intros (y & Hy & (k' & Hk' & [= <-])%bind_Ok)%bind_Ok.
    constructor; [by eapply Hf|by apply IH].
Qed.

Lemma np_arange_length (total stride : Z) (l : list Z) :
  0 ≤ total → 0 < stride → np_arange 0 total stride = Ok l →
  Z.of_nat (length l) = (total + stride - 1) `div` stride.
Proof.
  intros Htot Hs. unfold np_arange. rewrite decide_False by lia.
  intros [= <-].
  rewrite length_fmap, length_seqZ, ceil_div_pos by done.
  apply Z2Nat.id. apply Z.div_pos; lia.
Qed.

Section whole_run.
Context {V : Type} `{SortContract V}.

(** X11. Given a well-formed source dataset with at least one grid node
    and one time step, a rectangular river table of n > 0 rows with the
    columns Node, Lat and Lon, an axis selector 0 or 1, no explicit time
    steps, a positive stride below 2^63 and a destination path other than
    the source's, [create_subset_nc] succeeds: it writes one dataset at
    the destination path, with n nodes, the source's levels and
    ceil(time / stride) time steps. *)
Theorem create_subset_nc_succeeds (fs : FS V) (nc_file river_file : string)
    (sort_LonLat : Z) (output_file : string) (save_frequency : Z)
    (dataset : Dataset V) (df : DataFrame V) (n : nat) :
  fs !! nc_file = Some (NcFile dataset) →
  wf_dataset dataset →
  (0 < dim_node dataset)%nat →
  (0 < dim_time dataset)%nat →
  fs !! river_file = Some (CsvFile df) →
  wf_frame df n →
  (0 < n)%nat →
  is_Some (df !! "Node") → is_Some (df !! "Lat") → is_Some (df !! "Lon") →
  sort_LonLat = 0 ∨ sort_LonLat = 1 →
  0 < save_frequency < 2 ^ 63 →
  output_file ≠ nc_file →
  ∃ new,
    create_subset_nc fs nc_file river_file sort_LonLat output_file None
      save_frequency = Ok (<[output_file := NcFile new]> fs) ∧
    dim_node new = n ∧
    dim_level new = dim_level dataset ∧
    Z.of_nat (dim_time new)
    = (Z.of_nat (dim_time dataset) + save_frequency - 1)
        `div` save_frequency.
Proof.
  intros Hnc Hwf Hnodes _ Hriver Hframe Hn0 [node0 Hnode] [lat0 Hlat]
    [lon0 Hlon] Haxis [Hstride Hbig] Hout.
  assert (∃ by_ keys, (sort_LonLat = 0 ∧ by_ = "Lon"
                       ∨ sort_LonLat = 1 ∧ by_ = "Lat") ∧
                      df !! by_ = Some keys) as (by_ & keys & Hby & Hkeys).
  { destruct Haxis as [->| ->]; [exists "Lon", lon0|exists "Lat", lat0];
      split; auto. }
  destruct (sort_river_nodes_Ok fs river_file df n sort_LonLat by_ node0 lat0
              lon0 keys) as (d1 & Hsort & _); try done.
  set (p := argsort keys) in *.
  assert (Hp : p ≡ₚ seq 0 n).
  { unfold p. rewrite argsort_perm. by rewrite (Hframe _ _ Hkeys). }
  assert (Hrows : ∀ col : list V,
            length col = n → length (take_rows p col) = n).
  { intros col Hcol. unfold take_rows.
    rewrite (Permutation_length (omap_lookup_Permutation col p
               ltac:(by rewrite Hcol))). done. }
  pose proof Hwf as (Hlon' & Hlat' & _ & _ & Htime & _).
  set (glon := {| shape := [length (longitude dataset)];
                  data := longitude dataset |}).
  set (glat := {| shape := [length (latitude dataset)];
                  data := latitude dataset |}).
  set (queries := zip (take_rows p lon0) (take_rows p lat0)).
  assert (Hcell : ∀ q, ∃ i, resolve_index glon glat q = Ok i ∧
                            (i < dim_node dataset)%nat).
  { intros q.
    apply (resolve_index_bound glon glat (dim_node dataset) [] q).
    - simpl. by rewrite Hlon'.
    - simpl. unfold shape_size. simpl. lia.
    - simpl. unfold shape_size. simpl. lia.
    - unfold shape_size. simpl. lia. }
  destruct (mapM_is_Ok (resolve_index glon glat) queries) as [idx Hidx].
  { apply Forall_forall. intros q _. destruct (Hcell q) as (i & Hi & _).
    by eexists. }
  assert (Hbound : Forall (λ i, i < dim_node dataset)%nat idx).
  { eapply mapM_Ok_Forall; [|exact Hidx]. intros q i Hq.
    destruct (Hcell q) as (i' & Hi' & Hlt). congruence. }
  assert (Hlen : length idx = n).
  { rewrite (mapM_Ok_length _ _ _ Hidx). unfold queries.
    rewrite length_zip, !Hrows; [lia|..].
    - by apply (Hframe "Lat").
    - by apply (Hframe "Lon"). }
  destruct (np_arange 0 (Z.of_nat (length (time dataset))) save_frequency)
    as [l|e] eqn:Hl.
  2: { unfold np_arange in Hl. by rewrite decide_False in Hl by lia. }
  pose proof (np_arange_in_range _ _ _ Hstride Hl) as Hrange.
  pose proof (np_arange_length (Z.of_nat (length (time dataset)))
                save_frequency l ltac:(lia) Hstride Hl) as Hcount.
  rewrite Htime in Hrange, Hcount.
  destruct (write_subset_Ok dataset idx l Hwf Hbound)
    as (new & Hnew & Hn & Hlev & Ht & _).
  { eapply Forall_impl; [exact Hrange|]. intros t Hrt. simpl in Hrt. lia. }
  { left. intros ->. simpl in Hlen. lia. }
  exists new. split; [|split; [congruence|split; [done|congruence]]].
  apply create_subset_nc_Ok.
  eexists dataset, _, (take_rows p lon0), (take_rows p lat0), idx,
    (int_array l), new.
  split; [unfold open_dataset; by rewrite Hnc|].
  split; [exact Hsort|].
  split; [unfold column; by simplify_map_eq|].
  split; [unfold column; by simplify_map_eq|].
  split; [exact Hidx|].
  split.
  { unfold select_time_steps, int_array, fits_int64. rewrite Hl. simpl.
    rewrite bool_decide_eq_true_2; [done|lia]. }
  by split.
Qed.

End whole_run.

Section run_frame.
Context {V : Type} `{PyLibs V}.

(** X12. What a run writes depends on the source file and on the river
    file only: on two file systems that agree on these two paths, either
    both runs raise the same exception or both succeed and put the same
    dataset at the destination path, leaving every other path of their
    file system as it was, whatever the destination held before. *)
Theorem create_subset_nc_frame (fs1 fs2 : FS V)
    (nc_file river_file : string) (sort_LonLat : Z) (output_file : string)
    (time_steps : option (list Z)) (save_frequency : Z) :
  fs1 !! nc_file = fs2 !! nc_file →
  fs1 !! river_file = fs2 !! river_file →
  match create_subset_nc fs1 nc_file river_file sort_LonLat output_file
          time_steps save_frequency,
        create_subset_nc fs2 nc_file river_file sort_LonLat output_file
          time_steps save_frequency with
  | Ok fs1', Ok fs2' =>
      ∃ new, fs1' = <[output_file := NcFile new]> fs1 ∧
             fs2' = <[output_file := NcFile new]> fs2
  | Err e1, Err e2 => e1 = e2
  | _, _ => False
  end.
Proof.
  intros Hnc Hriver. unfold create_subset_nc.
  rewrite (open_dataset_ext fs1 fs2) by done.
  rewrite (sort_river_nodes_ext fs1 fs2) by done.
  destruct (open_dataset fs2 nc_file) as [dataset|e]; simpl; [|done].
  destruct (sort_river_nodes fs2 river_file sort_LonLat) as [nxyd|e];
    simpl; [|done].
  destruct (column nxyd "Lon") as [lons|e]; simpl; [|done].
  destruct (column nxyd "Lat") as [lats|e]; simpl; [|done].
  destruct (resolve_indices _ _ _) as [idx|e]; simpl; [|done].
  destruct (select_time_steps _ _ _) as [sel|e]; simpl; [|done].
  destruct (create_dataset nc_file output_file) as [[]|e]; simpl; [|done].
  destruct (write_subset _ _ _) as [new|e]; simpl; [|done].
  by exists new.
Qed.

End run_frame.

Lemma create_subset_nc_succeeds_witness :
  ∃ new,
    create_subset_nc fs_east_first "src.nc" "river.csv" 0 "out.nc" None 1
    = Ok (<["out.nc" := NcFile new]> fs_east_first) ∧
    dim_node new = 2%nat.
Proof.
  destruct (create_subset_nc_succeeds fs_east_first "src.nc" "river.csv" 0
              "out.nc" 1 source_east_first river_east_first 2)
    as (new & Hrun & Hnode & _).
  - reflexivity.
  - exact source_east_first_wf.
  - simpl. lia.
  - simpl. lia.
  - reflexivity.
  - exact river_east_first_wf.
  - lia.
  - eexists. reflexivity.
  - eexists. reflexivity.
  - eexists. reflexivity.
  - by left.
  - lia.
  - discriminate.
  - by exists new.
Defined.

Lemma create_subset_nc_frame_witness :
  ∃ new,
    <["out.nc" := NcFile subset_east_first]> fs_east_first
    = <["out.nc" := NcFile new]> fs_east_first.
Proof.
  set (fs2 := <["elsewhere.nc" := NcFile subset_east_first]> fs_east_first).
  assert (Hnc : fs_east_first !! "src.nc" = fs2 !! "src.nc")
    by (unfold fs2; by rewrite lookup_insert_ne).
  assert (Hriver : fs_east_first !! "river.csv" = fs2 !! "river.csv")
    by (unfold fs2; by rewrite lookup_insert_ne).
  pose proof (create_subset_nc_frame fs_east_first fs2 "src.nc" "river.csv"
                0 "out.nc" None 1 Hnc Hriver) as Hframe.
  rewrite run_east_first in Hframe.
  destruct (create_subset_nc fs2 _ _ _ _ _ _) as [fs2'|e]; [|done].
  destruct Hframe as (new & Hnew & _). by exists new.
Defined.

(** ** Processing a folder *)

Lemma string_app_cons (c : ascii) (a b : string) :
  String c a +:+ b = String c (a +:+ b).
Proof. reflexivity. Qed.

Lemma string_app_nil_l (b : string) : EmptyString +:+ b = b.
Proof. reflexivity. Qed.

Lemma string_app_nil_r (a : string) : a +:+ EmptyString = a.
Proof.
  induction a as [|x a IH]; [done|]. by rewrite string_app_cons, IH.
Qed.

Lemma string_app_assoc (a b c : string) :
  (a +:+ b) +:+ c = a +:+ (b +:+ c).
Proof.
  induction a as [|x a IH]; [done|]. by rewrite !string_app_cons, IH.
Qed.

Lemma basename_from_app (acc a b : string) :
  basename_from acc (a +:+ b) = basename_from (basename_from acc a) b.
Proof.
  revert acc. induction a as [|c a IH]; intros acc; [done|].
  rewrite string_app_cons. simpl. by case_bool_decide.
Qed.

Lemma basename_from_no_sep (acc b : string) :
  no_sep b = true → basename_from acc b = acc +:+ b.
Proof.
  revert acc. induction b as [|c b IH]; intros acc; simpl.
  - intros _. by rewrite string_app_nil_r.
  - intros [Hc Hb]%andb_true_iff. case_bool_decide; [done|].
    rewrite IH by done. by rewrite string_app_assoc.
Qed.

Lemma basename_from_ends_with_sep (acc a : string) :
  ends_with_sep a = true → basename_from acc a = EmptyString.
Proof.
  revert acc. induction a as [|c a IH]; intros acc; [done|].
  destruct a as [|c' a'].
  - simpl. by case_bool_decide.
  - intros Ha. change (ends_with_sep (String c' a') = true) in Ha.
    simpl. case_bool_decide; by apply IH.
Qed.

Lemma no_sep_snoc (acc : string) (c : ascii) :
  no_sep acc = true → c ≠ "/"%char →
  no_sep (acc +:+ String c EmptyString) = true.
Proof.
  intros Hacc Hc. induction acc as [|x acc IH].
  - rewrite string_app_nil_l. simpl. by rewrite bool_decide_false.
  - rewrite string_app_cons. simpl in *.
    apply andb_true_iff in Hacc as [-> Hacc]. simpl. by apply IH.
Qed.

Lemma no_sep_basename_from (acc p : string) :
  no_sep acc = true → no_sep (basename_from acc p) = true.
Proof.
  revert acc. induction p as [|c p IH]; intros acc Hacc; simpl; [done|].
  case_bool_decide as Hc; [by apply IH|]. by apply IH, no_sep_snoc.
Qed.

Lemma basename_from_sep (acc : string) :
  basename_from acc "/" = EmptyString.
Proof. reflexivity. Qed.

Lemma subset_name_no_sep (b : string) :
  no_sep b = true → no_sep ("subset_" +:+ b) = true.
Proof. intros Hb. rewrite !string_app_cons, string_app_nil_l. done. Qed.

Lemma subset_name_inj (a b : string) :
  "subset_" +:+ a = "subset_" +:+ b → a = b.
Proof.
  rewrite !string_app_cons, !string_app_nil_l. by intros [= ->].
Qed.

(** X13. The output path of a source file ends in the name of the source
    file with the prefix subset_: its base name is "subset_" followed by
    the base name of the source, whatever the two folders are; so two
    sources share an output path only if they have the same base name. *)
Theorem subset_path_basename (output_folder nc_file other : string) :
  os_path_basename (subset_path output_folder nc_file)
  = "subset_" +:+ os_path_basename nc_file ∧
  (subset_path output_folder nc_file = subset_path output_folder other →
   os_path_basename nc_file = os_path_basename other).
Proof.
  assert (Hname : ∀ f,
    os_path_basename (subset_path output_folder f)
    = "subset_" +:+ os_path_basename f).
  { intros f. unfold subset_path, os_path_join, os_path_basename.
    set (b := basename_from EmptyString f).
    assert (Hb : no_sep ("subset_" +:+ b) = true).
    { by apply subset_name_no_sep, no_sep_basename_from. }
    assert (starts_with_sep ("subset_" +:+ b) = false) as ->.
    { by rewrite string_app_cons. }
    destruct (bool_decide (output_folder = EmptyString)
              || ends_with_sep output_folder) eqn:Hout.
    - rewrite basename_from_app.
      apply orb_true_iff in Hout as [Hempty|Hsep].
      + apply bool_decide_eq_true in Hempty. subst output_folder.
        change (basename_from EmptyString EmptyString) with EmptyString.
        by rewrite (basename_from_no_sep EmptyString) by done.
      + rewrite (basename_from_ends_with_sep _ _ Hsep).
        by rewrite (basename_from_no_sep EmptyString) by done.
    - do 2 rewrite basename_from_app. rewrite basename_from_sep.
      by rewrite (basename_from_no_sep EmptyString) by done. }
  split; [apply Hname|]. intros Heq.
  pose proof (Hname nc_file) as H1. rewrite Heq, Hname in H1.
  by apply subset_name_inj.
Qed.

Section folder_properties.
Context {V : Type} `{PyLibs V} `{OsLibs V}.

Lemma create_subset_nc_agree (fs1 fs2 fs1' : FS V)
    (nc_file river_file : string) (sort_LonLat : Z) (output_file : string)
    (time_steps : option (list Z)) (save_frequency : Z) :
  fs1 !! nc_file = fs2 !! nc_file →
  fs1 !! river_file = fs2 !! river_file →
  create_subset_nc fs1 nc_file river_file sort_LonLat output_file time_steps
    save_frequency = Ok fs1' →
  ∃ new, fs1' = <[output_file := NcFile new]> fs1 ∧
         create_subset_nc fs2 nc_file river_file sort_LonLat output_file
           time_steps save_frequency
         = Ok (<[output_file := NcFile new]> fs2).
Proof.
  intros Hnc Hriver
    (dataset & river_nodes & lons & lats & idx & sel & new & Hd & Hr
     & Hlons & Hlats & Hidx & Hsel & Hout & Hnew & ->)%create_subset_nc_Ok.
  exists new. split; [done|]. apply create_subset_nc_Ok.
  exists dataset, river_nodes, lons, lats, idx, sel, new.
  rewrite <- (open_dataset_ext fs1 fs2) by done.
  rewrite <- (sort_river_nodes_ext fs1 fs2) by done. done.
Qed.

Lemma process_files_app (fs : FS V) (l1 l2 : list string)
    (river_file : string) (sort_LonLat : Z) (output_folder : string)
    (save_frequency : Z) :
  process_files fs (l1 ++ l2) river_file sort_LonLat output_folder
    save_frequency
  = fs1 ← process_files fs l1 river_file sort_LonLat output_folder
            save_frequency;
    process_files fs1 l2 river_file sort_LonLat output_folder save_frequency.
Proof.
  revert fs. induction l1 as [|f l1 IH]; intros fs; simpl; [done|].
  destruct (create_subset_nc fs f _ _ _ _ _) as [fs1|e]; simpl; [|done].
  apply IH.
Qed.

Lemma process_files_frame (fs fs' : FS V) (nc_files : list string)
    (river_file : string) (sort_LonLat : Z) (output_folder : string)
    (save_frequency : Z) (path : string) :
  process_files fs nc_files river_file sort_LonLat output_folder
    save_frequency = Ok fs' →
  path ∉ subset_path output_folder <$> nc_files →
  fs' !! path = fs !! path.
Proof.
  revert fs. induction nc_files as [|f l IH]; intros fs; simpl.
  - by intros [= <-].
  - intros (fs1 & Hrun & Hrest)%bind_Ok Hpath.
    apply not_elem_of_cons in Hpath as [Hne Hpath].
    rewrite (IH fs1 Hrest Hpath).
    apply create_subset_nc_Ok in Hrun
      as (? & ? & ? & ? & ? & ? & new & _ & _ & _ & _ & _ & _ & _ & _ & ->).
    by rewrite lookup_insert_ne.
Qed.

Lemma process_files_outputs (fs0 : FS V) (nc_files : list string)
    (river_file : string) (sort_LonLat : Z) (output_folder : string)
    (save_frequency : Z) :
  (∀ f, f ∈ nc_files →
        subset_path output_folder f ≠ river_file ∧
        subset_path output_folder f ∉ nc_files) →
  NoDup (subset_path output_folder <$> nc_files) →
  ∀ fs fs',
    fs !! river_file = fs0 !! river_file →
    (∀ f, f ∈ nc_files → fs !! f = fs0 !! f) →
    process_files fs nc_files river_file sort_LonLat output_folder
      save_frequency = Ok fs' →
    ∀ f, f ∈ nc_files →
      ∃ new,
        create_subset_nc fs0 f river_file sort_LonLat
          (subset_path output_folder f) None save_frequency
        = Ok (<[subset_path output_folder f := NcFile new]> fs0) ∧
        fs' !! subset_path output_folder f = Some (NcFile new).
Proof.
  induction nc_files as [|g l IH]; intros Hout Hnodup fs fs' Hriver Hfiles;
    [by intros _ f ?%elem_of_nil|].
  simpl. intros (fs1 & Hrun & Hrest)%bind_Ok f Hf.
  rewrite fmap_cons in Hnodup. apply NoDup_cons in Hnodup as [Hg Hnodup].
  destruct (create_subset_nc_agree fs fs0 fs1 g river_file sort_LonLat
              (subset_path output_folder g) None save_frequency)
    as (new & -> & Hrun0); [by apply Hfiles; left|done|done|].
  apply elem_of_cons in Hf as [->|Hf].
  - exists new. split; [done|].
    rewrite (process_files_frame _ _ _ _ _ _ _ _ Hrest Hg).
    by rewrite lookup_insert_eq.
  - assert (Hout' : ∀ f', f' ∈ l →
              subset_path output_folder f' ≠ river_file ∧
              subset_path output_folder f' ∉ l).
    { intros f' Hf'. destruct (Hout f' ltac:(by right)) as [Hr Hn].
      split; [done|]. intros Hin. apply Hn. by right. }
    apply (IH Hout' Hnodup (<[subset_path output_folder g := NcFile new]> fs)
             fs'); [| |done|done].
    + rewrite lookup_insert_ne; [done|].
      apply (Hout g). by left.
    + intros f' Hf'. rewrite lookup_insert_ne; [by apply Hfiles; right|].
      intros Heq. destruct (Hout g ltac:(by left)) as [_ Hnot].
      apply Hnot. rewrite Heq. by right.
Qed.

(** X14. A call of [process_folder] that succeeds changes only output
    paths: every path that is not the output path of one of the files the
    glob returned holds afterwards what it held before. *)
Theorem process_folder_frame (fs fs' : FS V) (nc_folder river_file : string)
    (sort_LonLat : Z) (output_folder : string) (save_frequency : Z)
    (path : string) :
  process_folder fs nc_folder river_file sort_LonLat output_folder
    save_frequency = Ok fs' →
  (∀ f, f ∈ glob fs (os_path_join nc_folder "*.nc") →
        path ≠ subset_path output_folder f) →
  fs' !! path = fs !! path.
Proof.
  unfold process_folder. intros (? & _ & Hrun)%bind_Ok Hpath.
  eapply process_files_frame; [exact Hrun|].
  intros (f & -> & Hf)%list_elem_of_fmap. by apply (Hpath f).
Qed.

(** X15. When no output path is the river file or one of the files the
    glob returned, and the output paths differ from each other, the files
    do not interfere: after a call that succeeds, the output path of each
    file holds the dataset that a single run of [create_subset_nc] on the
    initial files writes for it (no explicit time steps, the given
    stride). *)
Theorem process_folder_outputs (fs fs' : FS V) (nc_folder river_file : string)
    (sort_LonLat : Z) (output_folder : string) (save_frequency : Z) :
  let nc_files := glob fs (os_path_join nc_folder "*.nc") in
  (∀ f, f ∈ nc_files →
        subset_path output_folder f ≠ river_file ∧
        subset_path output_folder f ∉ nc_files) →
  NoDup (subset_path output_folder <$> nc_files) →
  process_folder fs nc_folder river_file sort_LonLat output_folder
    save_frequency = Ok fs' →
  ∀ f, f ∈ nc_files →
    ∃ new,
      create_subset_nc fs f river_file sort_LonLat
        (subset_path output_folder f) None save_frequency
      = Ok (<[subset_path output_folder f := NcFile new]> fs) ∧
      fs' !! subset_path output_folder f = Some (NcFile new).
Proof.
  intros nc_files Hout Hnodup. unfold process_folder.
  intros (? & _ & Hrun)%bind_Ok.
  by apply (process_files_outputs fs nc_files river_file sort_LonLat
              output_folder save_frequency Hout Hnodup fs fs').
Qed.

(** X16. The files are processed in the order of the glob and the first
    exception ends the call: when the files before f are processed
    without exception and the run for f raises e, [process_folder] raises
    e whatever files come after f; with no file at all it returns the
    files as they are, without reading the river table or looking at the
    axis selector. *)
Theorem process_folder_first_error (fs : FS V) (nc_folder river_file : string)
    (sort_LonLat : Z) (output_folder : string) (save_frequency : Z) :
  makedirs fs output_folder = Ok () →
  (glob fs (os_path_join nc_folder "*.nc") = [] →
   process_folder fs nc_folder river_file sort_LonLat output_folder
     save_frequency = Ok fs) ∧
  (∀ before f after fs1 e,
     glob fs (os_path_join nc_folder "*.nc") = before ++ f :: after →
     process_files fs before river_file sort_LonLat output_folder
       save_frequency = Ok fs1 →
     create_subset_nc fs1 f river_file sort_LonLat
       (subset_path output_folder f) None save_frequency = Err e →
     process_folder fs nc_folder river_file sort_LonLat output_folder
       save_frequency = Err e).
Proof.
  intros Hmk. unfold process_folder. rewrite Hmk. simpl. split.
  - by intros ->.
  - intros before f after fs1 e -> Hbefore Hf.
    rewrite process_files_app, Hbefore. simpl. by rewrite Hf.
Qed.

End folder_properties.

(** ** The folder of one file *)

Lemma folder_east_first :
  process_folder fs_east_first "" "river.csv" 0 "out" 1
  = Ok (<["out/subset_src.nc" := NcFile subset_east_first]> fs_east_first).
Proof. vm_compute. reflexivity. Qed.

Lemma process_folder_frame_witness :
  (<["out/subset_src.nc" := NcFile subset_east_first]> fs_east_first)
    !! "river.csv"
  = fs_east_first !! "river.csv".
Proof.
  apply (process_folder_frame fs_east_first _ "" "river.csv" 0 "out" 1).
  - exact folder_east_first.
  - intros f Hf. apply list_elem_of_singleton in Hf as ->. done.
Defined.

Lemma process_folder_outputs_witness :
  ∃ new,
    (<["out/subset_src.nc" := NcFile subset_east_first]> fs_east_first)
      !! "out/subset_src.nc" = Some (NcFile new) ∧
    dim_node new = 2%nat.
Proof.
  destruct (process_folder_outputs fs_east_first
              (<["out/subset_src.nc" := NcFile subset_east_first]>
                 fs_east_first) "" "river.csv" 0 "out" 1)
    with (f := "src.nc") as (new & Hrun & Hout).
  - intros f Hf. apply list_elem_of_singleton in Hf as ->.
    split; [done|]. by intros ?%list_elem_of_singleton.
  - apply NoDup_singleton.
  - exact folder_east_first.
  - by apply list_elem_of_singleton.
  - exists new. split; [exact Hout|].
    change (subset_path "out" "src.nc") with "out/subset_src.nc" in Hout.
    rewrite lookup_insert_eq in Hout. by injection Hout as <-.
Defined.

Lemma process_folder_first_error_witness :
  process_folder fs_east_first "" "river.csv" 2 "out" 1 = Err ValueError.
Proof.
  assert (Hmk : makedirs fs_east_first "out" = Ok ()) by reflexivity.
  destruct (process_folder_first_error fs_east_first "" "river.csv" 2 "out" 1
              Hmk) as [_ Herr].
  apply (Herr [] "src.nc" [] fs_east_first ValueError); reflexivity.
Defined.
